(** * HDict: a hashable dictionary

    A shallow embedding of [hdict/dictionary.py] and the properties of
    its constructor, coercing [__setitem__], factory-backed [__getitem__],
    [__hash__] and JSON helpers.

    Python objects are modelled as values of the inductive type [PyVal];
    object identity and aliasing are not modelled.  A method that may raise
    returns a [Result]; a method that mutates [self] returns the new [self]. *)

From Stdlib Require Import ZArith List String Ascii Bool Lia Permutation.
From Stdlib Require Import DecimalString.
Import ListNotations.
Open Scope string_scope.
Open Scope list_scope.
Open Scope Z_scope.

Set Warnings "-register-all".

(** ** Python values *)

(** The objects that reach the dictionary.  Strings are ASCII, so that the
    length of a [string] is the number of its characters.  A plain [dict] and
    an [HDict] keep their entries in insertion order.  A zero-argument
    callable is identified by [fid] (functions compare by identity) and
    yields [results n] on its call number [n]. *)
Inductive PyVal : Type :=
| PNone
| PInt (z : Z)
| PStr (s : string)
| PTuple (elems : list PyVal)
| PList (elems : list PyVal)
| PDict (entries : list (PyVal * PyVal))
| PHDict (entries : list (PyVal * PyVal)) (factory : PyVal)
| PFunc (fid : nat) (results : nat -> PyVal).

Definition Entries := list (PyVal * PyVal).

(** Induction principle that reaches inside tuples, lists and mappings. *)
Section PyVal_induction.
Variable P : PyVal -> Prop.
Hypothesis HNone : P PNone.
Hypothesis HInt : forall z, P (PInt z).
Hypothesis HStr : forall s, P (PStr s).
Hypothesis HTuple : forall l, Forall P l -> P (PTuple l).
Hypothesis HList : forall l, Forall P l -> P (PList l).
Hypothesis HDict : forall es,
    Forall (fun e => P (fst e) /\ P (snd e)) es -> P (PDict es).
Hypothesis HHDict : forall es f,
    Forall (fun e => P (fst e) /\ P (snd e)) es -> P (PHDict es f).
Hypothesis HFunc : forall i r, P (PFunc i r).

Fixpoint PyVal_nested_ind (v : PyVal) : P v :=
  let on_list :=
      fix on_list (l : list PyVal) : Forall P l :=
        match l with
        | [] => Forall_nil _
        | x :: r => Forall_cons _ (PyVal_nested_ind x) (on_list r)
        end in
  let on_entries :=
      fix on_entries (es : Entries)
        : Forall (fun e => P (fst e) /\ P (snd e)) es :=
        match es with
        | [] => Forall_nil _
        | (k, x) :: r =>
            Forall_cons (k, x)
              (conj (PyVal_nested_ind k) (PyVal_nested_ind x))
              (on_entries r)
        end in
  match v with
  | PNone => HNone
  | PInt z => HInt z
  | PStr s => HStr s
  | PTuple l => HTuple l (on_list l)
  | PList l => HList l (on_list l)
  | PDict es => HDict es (on_entries es)
  | PHDict es f => HHDict es f (on_entries es)
  | PFunc i r => HFunc i r
  end.
End PyVal_induction.

(** ** The abstract base classes the source tests with [isinstance] *)

(** [isinstance(v, typing.Hashable)]: the class defines [__hash__].  [list]
    and [dict] do not; [HDict] does. *)
Definition is_Hashable (v : PyVal) : bool :=
  match v with
  | PList _ | PDict _ => false
  | _ => true
  end.

(** [isinstance(v, typing.Mapping)] *)
Definition is_Mapping (v : PyVal) : bool :=
  match v with
  | PDict _ | PHDict _ _ => true
  | _ => false
  end.

(** [isinstance(v, typing.Sequence)] *)
Definition is_Sequence (v : PyVal) : bool :=
  match v with
  | PStr _ | PTuple _ | PList _ => true
  | _ => false
  end.

(** [isinstance(v, typing.Callable)] *)
Definition is_Callable (v : PyVal) : bool :=
  match v with
  | PFunc _ _ => true
  | _ => false
  end.

(** The characters of a string, each as a one-character string. *)
Fixpoint chars (s : string) : list PyVal :=
  match s with
  | EmptyString => []
  | String c r => PStr (String c EmptyString) :: chars r
  end.

(** The items of a sequence, in order: what indexing and unpacking see. *)
Definition seq_items (v : PyVal) : option (list PyVal) :=
  match v with
  | PStr s => Some (chars s)
  | PTuple l | PList l => Some l
  | _ => None
  end.

(** [v.items()] of a mapping *)
Definition items (v : PyVal) : Entries :=
  match v with
  | PDict es | PHDict es _ => es
  | _ => []
  end.

(** ** Equality and hashability of values *)

Fixpoint list_eqb {A B} (f : A -> B -> bool) (l1 : list A) (l2 : list B)
  : bool :=
  match l1, l2 with
  | [], [] => true
  | x :: r1, y :: r2 => f x y && list_eqb f r1 r2
  | _, _ => false
  end.

(** Python's [==].  Sequences compare item by item; two mappings are equal
    when they hold the same entries, whatever the order, the class ([dict] or
    [HDict]) and the factory.  The interpreter compares the sizes and looks
    every entry of one mapping up in the other ([dict_equal] below); on
    mappings with pairwise different keys that is the same relation
    ([py_eq_as_computed]). *)
Fixpoint py_eq (a b : PyVal) {struct a} : bool :=
  match a, b with
  | PNone, PNone => true
  | PInt x, PInt y => Z.eqb x y
  | PStr s, PStr t => String.eqb s t
  | PTuple l1, PTuple l2 => list_eqb py_eq l1 l2
  | PList l1, PList l2 => list_eqb py_eq l1 l2
  | PDict e1, PDict e2 | PDict e1, PHDict e2 _
  | PHDict e1 _, PDict e2 | PHDict e1 _, PHDict e2 _ =>
      forallb (fun p => existsb (fun q =>
                 py_eq (fst p) (fst q) && py_eq (snd p) (snd q)) e2) e1
      && forallb (fun q => existsb (fun p =>
                 py_eq (fst p) (fst q) && py_eq (snd p) (snd q)) e1) e2
  | PFunc i _, PFunc j _ => Nat.eqb i j
  | _, _ => false
  end.

(** [hash(v)] succeeds: every part that gets hashed is hashable.  Hashing an
    [HDict] hashes its keys. *)
Fixpoint py_hashable (v : PyVal) : bool :=
  match v with
  | PNone | PInt _ | PStr _ | PFunc _ _ => true
  | PTuple l => forallb py_hashable l
  | PList _ | PDict _ => false
  | PHDict es _ => forallb (fun e => py_hashable (fst e)) es
  end.

(** ** Exceptions *)

Inductive PyError : Type :=
| ValueError_arguments
    (* "An even number of arguments must be passed if keys and values are
       to be passed into a HDict individually" *)
| ValueError_value_not_hashable
    (* "An item cannot be inserted into a HDict - the value is not hashable" *)
| ValueError_key_not_hashable
    (* "An item cannot be inserted into a HDict - the key is not hashable" *)
| TypeError_unhashable       (* raised by the built-in dict and set *)
| TypeError_call             (* a call whose arguments cannot be bound *)
| TypeError_not_serializable (* raised by the JSON encoder *)
| KeyError (key : PyVal).

Inductive Result (A : Type) : Type :=
| Ok (a : A)
| Raise (e : PyError).
Arguments Ok {A} a.
Arguments Raise {A} e.

Notation "x <- e ;; k" :=
  (match e with Ok x => k | Raise err => Raise err end)
    (at level 61, e at next level, right associativity).

(** ** The built-in [dict] *)

(** The slot of a key: the first entry whose stored key equals it. *)
Fixpoint dict_lookup (es : Entries) (k : PyVal) : option PyVal :=
  match es with
  | [] => None
  | (k0, v0) :: rest => if py_eq k0 k then Some v0 else dict_lookup rest k
  end.

(** Writing a slot: an equal key keeps its stored key object and its
    position and gets the new value; a new key is appended. *)
Fixpoint dict_store (es : Entries) (k v : PyVal) : Entries :=
  match es with
  | [] => [(k, v)]
  | (k0, v0) :: rest =>
      if py_eq k0 k then (k0, v) :: rest else (k0, v0) :: dict_store rest k v
  end.

(** [dict.__setitem__]: the key is hashed first. *)
Definition dict_setitem (es : Entries) (k v : PyVal) : Result Entries :=
  if py_hashable k then Ok (dict_store es k v) else Raise TypeError_unhashable.

(** [dict.__contains__] *)
Definition dict_contains (es : Entries) (k : PyVal) : Result bool :=
  if py_hashable k
  then Ok (match dict_lookup es k with Some _ => true | None => false end)
  else Raise TypeError_unhashable.

(** [dict.__getitem__] *)
Definition dict_getitem (es : Entries) (k : PyVal) : Result PyVal :=
  if py_hashable k
  then match dict_lookup es k with
       | Some v => Ok v
       | None => Raise (KeyError k)
       end
  else Raise TypeError_unhashable.

(** [for key, value in pairs: target[key] = value] on a built-in dict; also
    [dict.update] with a mapping. *)
Fixpoint dict_setitems (es : Entries) (pairs : Entries) : Result Entries :=
  match pairs with
  | [] => Ok es
  | (k, v) :: rest => es' <- dict_setitem es k v ;; dict_setitems es' rest
  end.

(** ** Recognising the shape of the positional arguments *)

(** One turn of the loop of [_parameters_are_key_value_pairs]: the argument
    is a sequence of length 2 whose two items are hashable. *)
Definition is_key_value_pair (arg : PyVal) : bool :=
  match seq_items arg with
  | Some [a; b] => is_Hashable a && is_Hashable b
  | _ => false
  end.

Fixpoint all_key_value_pairs (args : list PyVal) : bool :=
  match args with
  | [] => true
  | arg :: rest =>
      if negb (is_key_value_pair arg) then false else all_key_value_pairs rest
  end.

Definition _parameters_are_key_value_pairs (args : list PyVal) : bool :=
  if Nat.eqb (List.length args) 0 then false else all_key_value_pairs args.

(** [args[index] for index in range(0, len(args), 2)] *)
Fixpoint even_indexed (args : list PyVal) : list PyVal :=
  match args with
  | [] => []
  | [a] => [a]
  | a :: _ :: rest => a :: even_indexed rest
  end.

Definition _parameters_is_key_value_list (args : list PyVal) : bool :=
  if Nat.eqb (List.length args) 0 then false
  else if negb (Nat.eqb (Nat.modulo (List.length args) 2) 0) then false
  else
    let unhashable_keys :=
        filter (fun a => negb (is_Hashable a)) (even_indexed args) in
    Nat.eqb (List.length unhashable_keys) 0.

(** [(args[i - 1], args[i]) for i in range(1, len(args), 2)] *)
Fixpoint flat_pairs (args : list PyVal) : Entries :=
  match args with
  | k :: v :: rest => (k, v) :: flat_pairs rest
  | _ => []
  end.

(** [key, value = arg] for an argument that passed the pair test *)
Definition unpack_pair (arg : PyVal) : PyVal * PyVal :=
  match seq_items arg with
  | Some [a; b] => (a, b)
  | _ => (PNone, PNone)
  end.

(** ** HDict *)

Record HDict : Type := mkHDict {
  hd_items : Entries;     (* the inherited dict storage *)
  hd_factory : PyVal      (* self.__factory *)
}.

Definition as_value (d : HDict) : PyVal := PHDict (hd_items d) (hd_factory d).

(** The body of [__setitem__] on the storage of [self], with the class
    constructor [construct v = self.__class__(values=v)] passed in. *)
Definition setitem_body (construct : PyVal -> Result PyVal)
    (self : Entries) (key value : PyVal) : Result Entries :=
  key' <- (if is_Mapping key && negb (is_Hashable key)
           then construct key else Ok key) ;;
  value' <- (if is_Mapping value && negb (is_Hashable value)
             then construct value
             else if negb (is_Hashable value)
                  then Raise ValueError_value_not_hashable
                  else if negb (is_Hashable key')
                       then Raise ValueError_key_not_hashable
                       else Ok value) ;;
  dict_setitem self key' value'.

(** [HDict(values=values)]: no positional or keyword argument and no
    factory.  This is the constructor call that [__setitem__] makes, and the
    loop over [values.items()] calls [__setitem__] in turn. *)
Fixpoint HDict_from_values (values : PyVal) : Result PyVal :=
  match values with
  | PDict es | PHDict es _ =>
      stored <- (fix merge (pairs : Entries) (self : Entries)
                   : Result Entries :=
                   match pairs with
                   | [] => Ok self
                   | (key, value) :: rest =>
                       self' <- setitem_body HDict_from_values self key value ;;
                       merge rest self'
                   end) es [] ;;
      Ok (PHDict stored PNone)
  | _ => Ok (PHDict [] PNone)
  end.

(** [HDict.__setitem__] *)
Definition HDict_setitem (self : HDict) (key value : PyVal) : Result HDict :=
  stored <- setitem_body HDict_from_values (hd_items self) key value ;;
  Ok (mkHDict stored (hd_factory self)).

(** [for key, value in pairs: self[key] = value] *)
Fixpoint HDict_setitems (self : HDict) (pairs : Entries) : Result HDict :=
  match pairs with
  | [] => Ok self
  | (key, value) :: rest =>
      self' <- HDict_setitem self key value ;; HDict_setitems self' rest
  end.

(** The first statement of [__init__]: the positional arguments are written
    into [kwargs]. *)
Definition merge_positional (args : list PyVal) (kwargs : Entries)
  : Result Entries :=
  if _parameters_are_key_value_pairs args then
    dict_setitems kwargs (map unpack_pair args)
  else if _parameters_is_key_value_list args then
    dict_setitems kwargs (flat_pairs args)
  else if Nat.eqb (List.length args) 1 && is_Mapping (nth 0 args PNone) then
    dict_setitems kwargs (items (nth 0 args PNone))
  else if negb (Nat.eqb (List.length args) 0) then
    Raise ValueError_arguments
  else Ok kwargs.

(** [HDict.__init__(self, *args, values=None, factory=None, **kwargs)] *)
Definition HDict_init (args : list PyVal) (values factory : PyVal)
    (kwargs : Entries) : Result HDict :=
  kwargs' <- merge_positional args kwargs ;;
  self <- HDict_setitems (mkHDict [] factory) kwargs' ;;
  if is_Mapping values then HDict_setitems self (items values) else Ok self.

(** The factory is called with no argument; [calls] counts the calls made so
    far. *)
Definition call_factory (factory : PyVal) (calls : nat) : PyVal :=
  match factory with
  | PFunc _ results => results calls
  | _ => PNone
  end.

(** [HDict.__getitem__].  Returns what the call returns or raises, [self]
    after the call and the number of factory calls after the call. *)
Definition HDict_getitem (self : HDict) (calls : nat) (key : PyVal)
  : Result PyVal * HDict * nat :=
  match dict_contains (hd_items self) key with
  | Raise e => (Raise e, self, calls)
  | Ok present =>
      if negb present && is_Callable (hd_factory self) then
        match HDict_setitem self key (call_factory (hd_factory self) calls) with
        | Raise e => (Raise e, self, S calls)
        | Ok self' => (dict_getitem (hd_items self') key, self', S calls)
        end
      else (dict_getitem (hd_items self) key, self, calls)
  end.

(** [HDict.empty] *)
Definition HDict_empty (self : HDict) : bool :=
  Nat.eqb (List.length (hd_items self)) 0.

(** ** Hashing *)

(** [set.add] for each item of an iterable: an item is hashed, and added
    unless an equal member is there. *)
Fixpoint set_add_all (members : list PyVal) (iterable : list PyVal)
  : Result (list PyVal) :=
  match iterable with
  | [] => Ok members
  | x :: rest =>
      if py_hashable x then
        set_add_all (if existsb (fun m => py_eq m x) members
                     then members else members ++ [x]) rest
      else Raise TypeError_unhashable
  end.

(** [frozenset(iterable)] *)
Definition frozenset (iterable : list PyVal) : Result (list PyVal) :=
  set_add_all [] iterable.

(** [list(self)]: iterating a dict yields its keys. *)
Definition keys (es : Entries) : list PyVal := map fst es.

Section Hashing.
(** The hash functions of the interpreter for the built-in types.  The
    hash of a string varies from process to process, and the bit mixing of
    tuples and sets is the interpreter's business: all of them are left
    open.  What is fixed is the shape of the hash of a set: the shuffled
    hashes of the members are combined with exclusive or, and the result
    is finished together with the number of members. *)
Variable hash_none : Z.
Variable hash_int : Z -> Z.
Variable hash_str : string -> Z.
Variable hash_func : nat -> Z.
Variable hash_tuple : list Z -> Z.
Variable shuffle_bits : Z -> Z.
Variable finish : nat -> Z -> Z.

Definition xor_shuffled (member_hashes : list Z) : Z :=
  fold_right (fun h acc => Z.lxor (shuffle_bits h) acc) 0 member_hashes.

Definition hash_of_set (member_hashes : list Z) : Z :=
  finish (List.length member_hashes) (xor_shuffled member_hashes).

(** The value of [hash(v)] when it succeeds.  An [HDict] found inside a
    value is hashed by [HDict.__hash__]; its keys are pairwise different,
    so the frozenset of them has exactly these members. *)
Fixpoint hash_value (v : PyVal) : Z :=
  match v with
  | PNone => hash_none
  | PInt z => hash_int z
  | PStr s => hash_str s
  | PFunc i _ => hash_func i
  | PTuple l => hash_tuple (map hash_value l)
  | PHDict es _ => hash_of_set (map (fun e => hash_value (fst e)) es)
  | PList _ | PDict _ => 0
  end.

(** [hash(v)] *)
Definition py_hash (v : PyVal) : Result Z :=
  if py_hashable v then Ok (hash_value v) else Raise TypeError_unhashable.

(** [hash(s)] for a frozenset [s] *)
Definition hash_frozenset (members : list PyVal) : Z :=
  hash_of_set (map hash_value members).

(** [HDict.__hash__]: [hash(frozenset(self))] *)
Definition HDict_hash (self : HDict) : Result Z :=
  members <- frozenset (keys (hd_items self)) ;;
  Ok (hash_frozenset members).
End Hashing.

(** ** JSON *)

(** The JSON codec is outside the repository.  A JSON text is modelled by
    the document it denotes together with the options it was rendered
    with.  The options are recorded and not interpreted: the model stands
    for the calls that pass no option or only [indent] with an integer or
    None ([only_indent] below), which change the white space of the text
    and nothing else.  Options that change the syntax of the text or the
    encoder (separators, a string as indent, skipkeys, sort_keys, default,
    cls, unknown names) are outside the model. *)
Inductive Json : Type :=
| JNull
| JNumber (z : Z)
| JString (s : string)
| JArray (elems : list Json)
| JObject (members : list (string * Json)).

Record JsonText : Type := mkJsonText {
  jt_options : list (string * PyVal);
  jt_document : Json
}.

(** The member name the encoder writes for a key. *)
Definition json_key (k : PyVal) : Result string :=
  match k with
  | PStr s => Ok s
  | PInt z => Ok (NilZero.string_of_int (Z.to_int z))
  | PNone => Ok "null"
  | _ => Raise TypeError_not_serializable
  end.

(** The document [json.dumps] renders. *)
Fixpoint json_encode (v : PyVal) : Result Json :=
  let encode_list :=
      fix encode_list (l : list PyVal) : Result (list Json) :=
        match l with
        | [] => Ok []
        | x :: rest =>
            j <- json_encode x ;; js <- encode_list rest ;; Ok (j :: js)
        end in
  let encode_entries :=
      fix encode_entries (es : Entries) : Result (list (string * Json)) :=
        match es with
        | [] => Ok []
        | (k, x) :: rest =>
            name <- json_key k ;;
            j <- json_encode x ;;
            ms <- encode_entries rest ;;
            Ok ((name, j) :: ms)
        end in
  match v with
  | PNone => Ok JNull
  | PInt z => Ok (JNumber z)
  | PStr s => Ok (JString s)
  | PTuple l | PList l => js <- encode_list l ;; Ok (JArray js)
  | PDict es | PHDict es _ => ms <- encode_entries es ;; Ok (JObject ms)
  | PFunc _ _ => Raise TypeError_not_serializable
  end.

(** The value [json.loads] builds: arrays become lists, objects become
    plain dicts, a repeated member name keeps its last value. *)
Fixpoint json_decode (j : Json) : PyVal :=
  match j with
  | JNull => PNone
  | JNumber z => PInt z
  | JString s => PStr s
  | JArray l => PList (map json_decode l)
  | JObject ms =>
      PDict ((fix decode_members (ms : list (string * Json)) (acc : Entries)
                : Entries :=
                match ms with
                | [] => acc
                | (name, x) :: rest =>
                    decode_members rest
                      (dict_store acc (PStr name) (json_decode x))
                end) ms [])
  end.

Definition has_option (name : string) (options : list (string * PyVal))
  : bool :=
  existsb (fun o => String.eqb (fst o) name) options.

(** [json.dumps(v, **options)], for options within the model *)
Definition json_dumps (v : PyVal) (options : list (string * PyVal))
  : Result JsonText :=
  doc <- json_encode v ;; Ok (mkJsonText options doc).

(** [json.loads(text)] *)
Definition json_loads (text : JsonText) : PyVal :=
  json_decode (jt_document text).

(** [HDict.to_json(self, **kwargs)] *)
Definition HDict_to_json (self : HDict) (kwargs : list (string * PyVal))
  : Result JsonText :=
  let kwargs' :=
      if negb (has_option "indent" kwargs)
      then kwargs ++ [("indent", PInt 4)] else kwargs in
  json_dumps (as_value self) kwargs'.

(** Binding the entries of a mapping, unpacked as keywords, to the parameters of
    [__init__(self, *args, values=None, factory=None, **kwargs)]. *)
Fixpoint bind_keywords (pairs : Entries) (values factory : PyVal)
    (kwargs : Entries) : Result (PyVal * PyVal * Entries) :=
  match pairs with
  | [] => Ok (values, factory, kwargs)
  | (PStr name, v) :: rest =>
      if String.eqb name "self" then Raise TypeError_call
      else if String.eqb name "values" then bind_keywords rest v factory kwargs
      else if String.eqb name "factory" then bind_keywords rest values v kwargs
      else bind_keywords rest values factory (kwargs ++ [(PStr name, v)])
  | _ :: _ => Raise TypeError_call
  end.

(** The call of the class with [mapping] unpacked as keywords *)
Definition HDict_call_keywords (mapping : PyVal) : Result HDict :=
  if is_Mapping mapping then
    bound <- bind_keywords (items mapping) PNone PNone [] ;;
    let '(values, factory, kwargs) := bound in
    HDict_init [] values factory kwargs
  else Raise TypeError_call.

(** [HDict.loads(string)] *)
Definition HDict_loads (text : JsonText) : Result HDict :=
  let loaded_dictionary := json_loads text in
  HDict_call_keywords loaded_dictionary.

(** ** Vocabulary of the statements *)

(** Two entries agree: equal keys and equal values. *)
Definition entry_match (p q : PyVal * PyVal) : bool :=
  py_eq (fst p) (fst q) && py_eq (snd p) (snd q).

(** The comparison that [py_eq] makes between two mappings. *)
Definition entries_eqb (e1 e2 : Entries) : bool :=
  forallb (fun p => existsb (fun q => entry_match p q) e2) e1
  && forallb (fun q => existsb (fun p => entry_match p q) e1) e2.

(** [k in l] *)
Definition py_in (k : PyVal) (l : list PyVal) : bool :=
  existsb (fun x => py_eq x k) l.

(** No two items are equal. *)
Fixpoint distinct (l : list PyVal) : bool :=
  match l with
  | [] => true
  | k :: rest => negb (py_in k rest) && distinct rest
  end.

(** What the interpreter guarantees of every value: in each mapping inside
    it, the keys have a hash and are pairwise different. *)
Fixpoint well_formed (v : PyVal) : bool :=
  match v with
  | PNone | PInt _ | PStr _ | PFunc _ _ => true
  | PTuple l | PList l => forallb well_formed l
  | PDict es | PHDict es _ =>
      forallb (fun e => well_formed (fst e) && well_formed (snd e)
                        && py_hashable (fst e)) es
      && distinct (map fst es)
  end.

Definition well_formed_entries (es : Entries) : bool :=
  forallb (fun e => well_formed (fst e) && well_formed (snd e)
                    && py_hashable (fst e)) es
  && distinct (keys es).

(** The first two statements of [__setitem__], as applied to one argument:
    a mapping that is not hashable is replaced by an [HDict] built from it,
    anything else is left alone. *)
Definition coerce_mapping (v : PyVal) : Result PyVal :=
  if is_Mapping v && negb (is_Hashable v) then HDict_from_values v else Ok v.

(** The loop of [HDict_from_values], by name. *)
Fixpoint merge_values (pairs : Entries) (self : Entries) : Result Entries :=
  match pairs with
  | [] => Ok self
  | (key, value) :: rest =>
      self' <- setitem_body HDict_from_values self key value ;;
      merge_values rest self'
  end.

(** Two mappings have the same key set. *)
Definition same_key_set (d1 d2 : HDict) : Prop :=
  forall k, py_in k (keys (hd_items d1)) = py_in k (keys (hd_items d2)).

(** Two instances hold the same keys with the same values: [d1 == d2]. *)
Definition same_contents (d1 d2 : HDict) : Prop :=
  py_eq (as_value d1) (as_value d2) = true.

(** The test of the third branch of [__init__]: one positional argument,
    and it is a mapping. *)
Definition is_single_mapping (args : list PyVal) : bool :=
  Nat.eqb (List.length args) 1 && is_Mapping (nth 0 args PNone).

(** The exceptions an insertion can raise. *)
Definition is_insertion_error (e : PyError) : bool :=
  match e with
  | ValueError_value_not_hashable | ValueError_key_not_hashable
  | TypeError_unhashable => true
  | _ => false
  end.

(** A factory whose every call returns [v] *)
Definition constant_factory (v : PyVal) : PyVal := PFunc 0 (fun _ => v).

(** An entry [s] built by the constructor from the entry [p] of the mapping
    it was given: the key as it is, the value coerced. *)
Definition coerced_entry (s p : PyVal * PyVal) : Prop :=
  fst s = fst p /\ coerce_mapping (snd p) = Ok (snd s)
  /\ is_Hashable (snd s) = true.

(** The keys and values of the entries are instances of Hashable. *)
Definition all_Hashable (es : Entries) : Prop :=
  forall k v, In (k, v) es -> is_Hashable k = true /\ is_Hashable v = true.

(** The keys and values of the entries are well formed. *)
Definition well_formed_pairs (es : Entries) : Prop :=
  forall p, In p es ->
    well_formed (fst p) = true /\ well_formed (snd p) = true.

(** [a == b] for two dicts as the interpreter computes it: the sizes are
    compared, then every entry of [a] is looked up in [b]. *)
Definition dict_equal (e1 e2 : Entries) : bool :=
  Nat.eqb (List.length e1) (List.length e2)
  && forallb (fun p => match dict_lookup e2 (fst p) with
                       | Some v => py_eq (snd p) v
                       | None => false
                       end) e1.

(** The entries that the first statement of [__init__] writes into
    [kwargs], by the shape of the positional arguments. *)
Definition positional_entries (args : list PyVal) : Entries :=
  if _parameters_are_key_value_pairs args then map unpack_pair args
  else if _parameters_is_key_value_list args then flat_pairs args
  else if is_single_mapping args then items (nth 0 args PNone)
  else [].

(** The loops of [json_encode] and [json_decode], by name. *)
Fixpoint encode_entries (es : Entries) : Result (list (string * Json)) :=
  match es with
  | [] => Ok []
  | (k, x) :: rest =>
      name <- json_key k ;;
      j <- json_encode x ;;
      ms <- encode_entries rest ;;
      Ok ((name, j) :: ms)
  end.

Fixpoint decode_members (ms : list (string * Json)) (acc : Entries)
  : Entries :=
  match ms with
  | [] => acc
  | (name, x) :: rest =>
      decode_members rest (dict_store acc (PStr name) (json_decode x))
  end.

Definition is_str (v : PyVal) : bool :=
  match v with
  | PStr _ => true
  | _ => false
  end.

(** A value that JSON represents without loss: None, an integer, a string,
    or a mapping from strings to such values. *)
Fixpoint json_value (v : PyVal) : bool :=
  match v with
  | PNone | PInt _ | PStr _ => true
  | PDict es | PHDict es _ =>
      forallb (fun e => is_str (fst e) && json_value (snd e)) es
  | PTuple _ | PList _ | PFunc _ _ => false
  end.

(** A name that the call of the class binds to a parameter of [__init__]
    instead of collecting it in [kwargs]. *)
Definition is_parameter_name (k : PyVal) : bool :=
  match k with
  | PStr name =>
      String.eqb name "self" || String.eqb name "values"
      || String.eqb name "factory"
  | _ => false
  end.

(** The entries that [json_decode] builds from members with pairwise
    different names. *)
Definition decoded_entries (ms : list (string * Json)) : Entries :=
  map (fun m => (PStr (fst m), json_decode (snd m))) ms.

(** The member [m] renders the entry [e] without loss. *)
Definition renders (m : string * Json) (e : PyVal * PyVal) : Prop :=
  fst e = PStr (fst m)
  /\ py_eq (json_decode (snd m)) (snd e) = true
  /\ well_formed (json_decode (snd m)) = true
  /\ json_value (json_decode (snd m)) = true.

(** The options of the model: none, or [indent] alone with an integer or
    None. *)
Definition only_indent (options : list (string * PyVal)) : bool :=
  match options with
  | [] => true
  | [(name, PInt _)] | [(name, PNone)] => String.eqb name "indent"
  | _ => false
  end.

(** * Properties *)

(** ** Equality is an equivalence *)

Lemma py_eq_mappings (a b : PyVal) :
  is_Mapping a = true -> is_Mapping b = true ->
  py_eq a b = entries_eqb (items a) (items b).
Proof.
  destruct a; try discriminate; destruct b; try discriminate; reflexivity.
Qed.

Lemma entries_eqb_spec (e1 e2 : Entries) :
  entries_eqb e1 e2 = true <->
  (forall p, In p e1 -> exists q, In q e2 /\ entry_match p q = true)
  /\ (forall q, In q e2 -> exists p, In p e1 /\ entry_match p q = true).
Proof.
  unfold entries_eqb.
  rewrite andb_true_iff, !forallb_forall.
  split; intros [H1 H2]; split; intros x Hx.
  - apply H1 in Hx. apply existsb_exists in Hx. exact Hx.
  - apply H2 in Hx. apply existsb_exists in Hx. exact Hx.
  - apply existsb_exists. auto.
  - apply existsb_exists. auto.
Qed.

Lemma list_eqb_refl (l : list PyVal) :
  Forall (fun x => py_eq x x = true) l -> list_eqb py_eq l l = true.
Proof.
  induction 1 as [|x r Hx _ IH]; simpl; [reflexivity|].
  now rewrite Hx, IH.
Qed.

Lemma py_eq_refl (v : PyVal) : py_eq v v = true.
Proof.
  induction v as [ | z | s | l IH | l IH | es IH | es f IH | i r ]
    using PyVal_nested_ind; simpl.
  - reflexivity.
  - apply Z.eqb_refl.
  - apply String.eqb_refl.
  - now apply list_eqb_refl.
  - now apply list_eqb_refl.
  - change (entries_eqb es es = true). apply entries_eqb_spec.
    rewrite Forall_forall in IH.
    split; intros p Hp; exists p; (split; [exact Hp|]);
      unfold entry_match; destruct (IH p Hp) as [-> ->]; reflexivity.
  - change (entries_eqb es es = true). apply entries_eqb_spec.
    rewrite Forall_forall in IH.
    split; intros p Hp; exists p; (split; [exact Hp|]);
      unfold entry_match; destruct (IH p Hp) as [-> ->]; reflexivity.
  - apply Nat.eqb_refl.
Qed.

Lemma list_eqb_sym (l1 : list PyVal) :
  Forall (fun x => forall y, py_eq x y = py_eq y x) l1 ->
  forall l2, list_eqb py_eq l1 l2 = list_eqb py_eq l2 l1.
Proof.
  induction 1 as [|x r Hx _ IH]; intros [|y l2]; simpl; try reflexivity.
  now rewrite Hx, IH.
Qed.

Lemma forallb_existsb_ext {A B} (f g : A -> B -> bool) l1 l2 :
  (forall x y, In x l1 -> In y l2 -> f x y = g x y) ->
  forallb (fun x => existsb (f x) l2) l1
  = forallb (fun x => existsb (g x) l2) l1.
Proof.
  intros H. induction l1 as [|x r IH]; simpl; [reflexivity|].
  rewrite IH by (intros; apply H; simpl; auto).
  f_equal.
  assert (Hx : forall y, In y l2 -> f x y = g x y)
    by (intros; apply H; simpl; auto).
  clear - Hx. induction l2 as [|y l2 IH]; simpl; [reflexivity|].
  rewrite Hx by (simpl; auto). rewrite IH by (intros; apply Hx; simpl; auto).
  reflexivity.
Qed.

Lemma entries_eqb_sym (e1 e2 : Entries) :
  Forall (fun e => (forall y, py_eq (fst e) y = py_eq y (fst e))
                   /\ (forall y, py_eq (snd e) y = py_eq y (snd e))) e1 ->
  entries_eqb e1 e2 = entries_eqb e2 e1.
Proof.
  intros IH. rewrite Forall_forall in IH.
  unfold entries_eqb. rewrite andb_comm. f_equal.
  - apply forallb_existsb_ext. intros q p Hq Hp. unfold entry_match.
    destruct (IH p Hp) as [Hk Hv]. now rewrite Hk, Hv.
  - apply forallb_existsb_ext. intros p q Hp Hq. unfold entry_match.
    destruct (IH p Hp) as [Hk Hv]. now rewrite Hk, Hv.
Qed.

Lemma py_eq_sym (a b : PyVal) : py_eq a b = py_eq b a.
Proof.
  revert b.
  induction a as [ | z | s | l IH | l IH | es IH | es f IH | i r ]
    using PyVal_nested_ind; intros b; destruct b; simpl; try reflexivity.
  - apply Z.eqb_sym.
  - apply String.eqb_sym.
  - now apply list_eqb_sym.
  - now apply list_eqb_sym.
  - now apply entries_eqb_sym.
  - now apply entries_eqb_sym.
  - now apply entries_eqb_sym.
  - now apply entries_eqb_sym.
  - apply Nat.eqb_sym.
Qed.

Lemma list_eqb_trans (l1 : list PyVal) :
  Forall (fun x => forall y z,
              py_eq x y = true -> py_eq y z = true -> py_eq x z = true) l1 ->
  forall l2 l3,
    list_eqb py_eq l1 l2 = true -> list_eqb py_eq l2 l3 = true ->
    list_eqb py_eq l1 l3 = true.
Proof.
  induction 1 as [|x r Hx _ IH]; intros [|y l2] [|z l3]; simpl;
    try discriminate; try reflexivity.
  rewrite !andb_true_iff. intros [H1 H2] [H3 H4].
  split; [eapply Hx | eapply IH]; eassumption.
Qed.

Lemma entries_eqb_trans (e1 e2 e3 : Entries) :
  Forall (fun e =>
            (forall y z, py_eq (fst e) y = true -> py_eq y z = true ->
                         py_eq (fst e) z = true)
            /\ (forall y z, py_eq (snd e) y = true -> py_eq y z = true ->
                            py_eq (snd e) z = true)) e1 ->
  entries_eqb e1 e2 = true -> entries_eqb e2 e3 = true ->
  entries_eqb e1 e3 = true.
Proof.
  intros IH H12 H23. rewrite Forall_forall in IH.
  apply entries_eqb_spec in H12. destruct H12 as [A12 B12].
  apply entries_eqb_spec in H23. destruct H23 as [A23 B23].
  apply entries_eqb_spec. unfold entry_match in *. split.
  - intros p Hp. destruct (A12 p Hp) as (q & Hq & Hpq).
    destruct (A23 q Hq) as (r & Hr & Hqr).
    apply andb_true_iff in Hpq. apply andb_true_iff in Hqr.
    exists r. split; [exact Hr|]. destruct (IH p Hp) as [Tk Tv].
    apply andb_true_iff. split; [eapply Tk | eapply Tv]; intuition eauto.
  - intros r Hr. destruct (B23 r Hr) as (q & Hq & Hqr).
    destruct (B12 q Hq) as (p & Hp & Hpq).
    apply andb_true_iff in Hpq. apply andb_true_iff in Hqr.
    exists p. split; [exact Hp|]. destruct (IH p Hp) as [Tk Tv].
    apply andb_true_iff. split; [eapply Tk | eapply Tv]; intuition eauto.
Qed.

Lemma py_eq_trans (a b c : PyVal) :
  py_eq a b = true -> py_eq b c = true -> py_eq a c = true.
Proof.
  revert b c.
  induction a as [ | z | s | l IH | l IH | es IH | es f IH | i r ]
    using PyVal_nested_ind; intros b c; destruct b; simpl; try discriminate;
    destruct c; simpl; try discriminate; try reflexivity.
  - rewrite !Z.eqb_eq. congruence.
  - rewrite !String.eqb_eq. congruence.
  - now apply list_eqb_trans.
  - now apply list_eqb_trans.
  - now apply entries_eqb_trans.
  - now apply entries_eqb_trans.
  - now apply entries_eqb_trans.
  - now apply entries_eqb_trans.
  - now apply entries_eqb_trans.
  - now apply entries_eqb_trans.
  - now apply entries_eqb_trans.
  - now apply entries_eqb_trans.
  - rewrite !Nat.eqb_eq. congruence.
Qed.

(** ** The built-in dict *)

Lemma dict_lookup_store_same (es : Entries) (k v : PyVal) :
  dict_lookup (dict_store es k v) k = Some v.
Proof.
  induction es as [|[k0 v0] rest IH]; simpl.
  - now rewrite py_eq_refl.
  - destruct (py_eq k0 k) eqn:E; simpl; rewrite E; [reflexivity | exact IH].
Qed.

Lemma dict_lookup_store_other (es : Entries) (k k' v : PyVal) :
  py_eq k k' = false ->
  dict_lookup (dict_store es k v) k' = dict_lookup es k'.
Proof.
  intros Hne. induction es as [|[k0 v0] rest IH]; simpl.
  - now rewrite Hne.
  - destruct (py_eq k0 k) eqn:E; simpl.
    + destruct (py_eq k0 k') eqn:E'; [|reflexivity].
      exfalso. rewrite py_eq_sym in E.
      rewrite (py_eq_trans _ _ _ E E') in Hne. discriminate.
    + destruct (py_eq k0 k'); [reflexivity | exact IH].
Qed.

Lemma dict_lookup_eq_key (es : Entries) (k k' : PyVal) :
  py_eq k k' = true -> dict_lookup es k = dict_lookup es k'.
Proof.
  intros He. induction es as [|[k0 v0] rest IH]; simpl; [reflexivity|].
  destruct (py_eq k0 k) eqn:E.
  - now rewrite (py_eq_trans _ _ _ E He).
  - destruct (py_eq k0 k') eqn:E'; [|exact IH].
    rewrite py_eq_sym in He. rewrite (py_eq_trans _ _ _ E' He) in E.
    discriminate.
Qed.

Lemma dict_lookup_py_in (es : Entries) (k : PyVal) :
  py_in k (keys es) = match dict_lookup es k with Some _ => true | None => false end.
Proof.
  induction es as [|[k0 v0] rest IH]; simpl; [reflexivity|].
  destruct (py_eq k0 k); [reflexivity | exact IH].
Qed.

Lemma dict_store_absent (es : Entries) (k v : PyVal) :
  dict_lookup es k = None -> dict_store es k v = es ++ [(k, v)].
Proof.
  induction es as [|[k0 v0] rest IH]; simpl; [reflexivity|].
  destruct (py_eq k0 k); [discriminate|]. intros H. now rewrite IH.
Qed.

Lemma dict_store_present (es : Entries) (k v w : PyVal) :
  dict_lookup es k = Some w ->
  keys (dict_store es k v) = keys es
  /\ List.length (dict_store es k v) = List.length es.
Proof.
  induction es as [|[k0 v0] rest IH]; simpl; [discriminate|].
  destruct (py_eq k0 k); simpl; [auto|].
  intros H. destruct (IH H) as [-> ->]. auto.
Qed.

Lemma dict_store_length_absent (es : Entries) (k v : PyVal) :
  dict_lookup es k = None ->
  List.length (dict_store es k v) = S (List.length es).
Proof.
  intros H. rewrite dict_store_absent by exact H.
  rewrite length_app. simpl. lia.
Qed.

(** ** Construction *)

Lemma all_key_value_pairs_forallb (args : list PyVal) :
  all_key_value_pairs args = forallb is_key_value_pair args.
Proof.
  induction args as [|a r IH]; simpl; [reflexivity|].
  destruct (is_key_value_pair a); simpl; [exact IH | reflexivity].
Qed.

Lemma is_key_value_pair_spec (arg : PyVal) :
  is_key_value_pair arg = true <->
  exists a b, seq_items arg = Some [a; b]
              /\ is_Hashable a = true /\ is_Hashable b = true.
Proof.
  unfold is_key_value_pair. split.
  - destruct (seq_items arg) as [[|a [|b [|c l]]]|]; try discriminate.
    intros H. apply andb_true_iff in H. exists a, b. tauto.
  - intros (a & b & -> & Ha & Hb). now rewrite Ha, Hb.
Qed.

(** C3, as stated, fails: a single argument that is a list of two pairs is
    itself taken for one pair, so ["a"] and ["b"] are not keys of the
    result. *)
Lemma construction_from_one_list_of_pairs :
  HDict_init [PList [PTuple [PStr "a"; PInt 1]; PTuple [PStr "b"; PInt 2]]]
             PNone PNone []
  = Ok (mkHDict [(PTuple [PStr "a"; PInt 1], PTuple [PStr "b"; PInt 2])] PNone)
  /\ ~ (exists d1 d2 d3,
           HDict_init
             [PList [PTuple [PStr "a"; PInt 1]; PTuple [PStr "b"; PInt 2]]]
             PNone PNone [] = Ok d1
           /\ HDict_init [PStr "a"; PInt 1; PStr "b"; PInt 2] PNone PNone []
              = Ok d2
           /\ HDict_init [PDict [(PStr "a", PInt 1); (PStr "b", PInt 2)]]
                PNone PNone [] = Ok d3
           /\ same_contents d1 d2 /\ same_contents d1 d3).
Proof.
  split; [reflexivity|].
  intros (d1 & d2 & d3 & H1 & H2 & _ & H12 & _).
  vm_compute in H1. vm_compute in H2.
  injection H1 as <-. injection H2 as <-.
  vm_compute in H12. discriminate.
Qed.

(** C3, amended: with each pair passed as a positional argument of its own,
    the pair form, the flat form and the single-mapping form build the same
    instance: the keys ["a"] and ["b"] with the values 1 and 2. *)
Theorem construction_forms_agree :
  let expected :=
      mkHDict [(PStr "a", PInt 1); (PStr "b", PInt 2)] PNone in
  HDict_init [PTuple [PStr "a"; PInt 1]; PTuple [PStr "b"; PInt 2]]
             PNone PNone [] = Ok expected
  /\ HDict_init [PStr "a"; PInt 1; PStr "b"; PInt 2] PNone PNone []
     = Ok expected
  /\ HDict_init [PDict [(PStr "a", PInt 1); (PStr "b", PInt 2)]]
       PNone PNone [] = Ok expected.
Proof.
  repeat split; reflexivity.
Qed.

(** C7: positional arguments that are neither all pairs, nor a flat list of
    even length with hashable keys, nor a single mapping, nor absent, make
    the constructor raise its ValueError in its first statement: nothing
    has been built and no instance is returned. *)
Theorem construction_rejects_other_shapes
    (args : list PyVal) (values factory : PyVal) (kwargs : Entries) :
  _parameters_are_key_value_pairs args = false ->
  _parameters_is_key_value_list args = false ->
  is_single_mapping args = false ->
  args <> [] ->
  merge_positional args kwargs = Raise ValueError_arguments
  /\ HDict_init args values factory kwargs = Raise ValueError_arguments.
Proof.
  intros Hpairs Hflat Hmap Hne.
  assert (Hm : merge_positional args kwargs = Raise ValueError_arguments).
  { unfold merge_positional. rewrite Hpairs, Hflat.
    unfold is_single_mapping in Hmap. rewrite Hmap.
    destruct args; [contradiction | reflexivity]. }
  split; [exact Hm|]. unfold HDict_init. now rewrite Hm.
Qed.

Lemma construction_rejects_other_shapes_witness :
  HDict_init [PStr "a"; PInt 1; PStr "b"] PNone PNone []
  = Raise ValueError_arguments.
Proof.
  apply (construction_rejects_other_shapes
           [PStr "a"; PInt 1; PStr "b"] PNone PNone []);
    [reflexivity | reflexivity | reflexivity | discriminate].
Defined.

(** C10, as stated, fails: an argument that is a sequence of two hashable
    items is not taken for a pair when another argument is not one.  From
    ["ab"] and 5 the pair test fails at 5, the flat form is taken, and the
    result is the one entry ab -> 5. *)
Lemma two_character_string_as_flat_key :
  is_key_value_pair (PStr "ab") = true
  /\ _parameters_are_key_value_pairs [PStr "ab"; PInt 5] = false
  /\ HDict_init [PStr "ab"; PInt 5] PNone PNone []
     = Ok (mkHDict [(PStr "ab", PInt 5)] PNone)
  /\ ~ (forall args,
          (exists arg, In arg args /\ is_key_value_pair arg = true) ->
          _parameters_are_key_value_pairs args = true).
Proof.
  split; [reflexivity|]. split; [reflexivity|]. split; [reflexivity|].
  intros H. specialize (H [PStr "ab"; PInt 5]).
  assert (E : _parameters_are_key_value_pairs [PStr "ab"; PInt 5] = true).
  { apply H. exists (PStr "ab"). split; [simpl; auto | reflexivity]. }
  discriminate E.
Qed.

(** C10, amended: when every positional argument is a sequence of two
    hashable items (a two-character string is one), and only then, the
    constructor takes the pair form and unpacks each argument into a key and
    a value; from ["ab"] and ["cd"] it builds the entries a -> b and c -> d,
    and not the entry ab -> cd. *)
Theorem two_item_sequences_are_pairs :
  (forall (args : list PyVal) (kwargs : Entries),
      args <> [] ->
      (forall arg, In arg args ->
         exists a b, seq_items arg = Some [a; b]
                     /\ is_Hashable a = true /\ is_Hashable b = true) ->
      _parameters_are_key_value_pairs args = true
      /\ merge_positional args kwargs
         = dict_setitems kwargs (map unpack_pair args))
  /\ (forall args : list PyVal,
        _parameters_are_key_value_pairs args = true ->
        args <> []
        /\ forall arg, In arg args ->
             exists a b, seq_items arg = Some [a; b]
                         /\ is_Hashable a = true /\ is_Hashable b = true)
  /\ seq_items (PStr "ab") = Some [PStr "a"; PStr "b"]
  /\ HDict_init [PStr "ab"; PStr "cd"] PNone PNone []
     = Ok (mkHDict [(PStr "a", PStr "b"); (PStr "c", PStr "d")] PNone)
  /\ HDict_init [PStr "ab"; PStr "cd"] PNone PNone []
     <> Ok (mkHDict [(PStr "ab", PStr "cd")] PNone).
Proof.
  split; [|split; [|split; [reflexivity | split; [reflexivity | discriminate]]]].
  - intros args kwargs Hne Hall.
    assert (Hp : _parameters_are_key_value_pairs args = true).
    { unfold _parameters_are_key_value_pairs.
      destruct args as [|a r]; [contradiction|].
      change (Nat.eqb (List.length (a :: r)) 0) with false. cbv iota.
      rewrite all_key_value_pairs_forallb. apply forallb_forall.
      intros arg Harg. apply is_key_value_pair_spec. auto. }
    split; [exact Hp|]. unfold merge_positional. now rewrite Hp.
  - intros args. unfold _parameters_are_key_value_pairs.
    destruct args as [|a r]; [discriminate|].
    change (Nat.eqb (List.length (a :: r)) 0) with false. cbv iota.
    rewrite all_key_value_pairs_forallb, forallb_forall. intros Hall.
    split; [discriminate|]. intros arg Harg.
    apply is_key_value_pair_spec. auto.
Qed.

Lemma two_item_sequences_are_pairs_witness :
  _parameters_are_key_value_pairs [PTuple [PStr "k"; PInt 7]; PStr "xy"]
  = true
  /\ merge_positional [PTuple [PStr "k"; PInt 7]; PStr "xy"] []
     = Ok [(PStr "k", PInt 7); (PStr "x", PStr "y")].
Proof.
  destruct (proj1 two_item_sequences_are_pairs
              [PTuple [PStr "k"; PInt 7]; PStr "xy"] []) as [H1 H2].
  - discriminate.
  - intros arg [<-|[<-|[]]].
    + exists (PStr "k"), (PInt 7). repeat split; reflexivity.
    + exists (PStr "x"), (PStr "y"). repeat split; reflexivity.
  - split; [exact H1 | rewrite H2; reflexivity].
Defined.

(** ** Insertion *)

Arguments setitem_body : simpl never.
Arguments HDict_from_values : simpl never.

Lemma HDict_from_values_unfold (v : PyVal) :
  HDict_from_values v
  = if is_Mapping v
    then stored <- merge_values (items v) [] ;; Ok (PHDict stored PNone)
    else Ok (PHDict [] PNone).
Proof. destruct v; reflexivity. Qed.

Lemma HDict_from_values_is_HDict (v h : PyVal) :
  HDict_from_values v = Ok h -> exists es, h = PHDict es PNone.
Proof.
  rewrite HDict_from_values_unfold.
  destruct (is_Mapping v).
  - destruct (merge_values (items v) []) as [stored|e]; [|discriminate].
    intros H. injection H as <-. eauto.
  - intros H. injection H as <-. eauto.
Qed.

Lemma coerce_mapping_hashable (v : PyVal) :
  is_Hashable v = true -> coerce_mapping v = Ok v.
Proof.
  intros H. unfold coerce_mapping. rewrite H.
  now rewrite andb_false_r.
Qed.

Lemma py_hashable_is_Hashable (v : PyVal) :
  py_hashable v = true -> is_Hashable v = true.
Proof. destruct v; simpl; congruence. Qed.

(** A successful insertion stores the coerced key with the coerced value,
    and both are hashable. *)
Lemma setitem_body_Ok (self : Entries) (key value : PyVal) (stored : Entries) :
  setitem_body HDict_from_values self key value = Ok stored ->
  exists key' value',
    coerce_mapping key = Ok key' /\ coerce_mapping value = Ok value'
    /\ is_Hashable key' = true /\ is_Hashable value' = true
    /\ py_hashable key' = true
    /\ stored = dict_store self key' value'.
Proof.
  unfold setitem_body, coerce_mapping, dict_setitem.
  destruct (if is_Mapping key && negb (is_Hashable key)
            then HDict_from_values key else Ok key) as [key'|e] eqn:Hk;
    [|discriminate].
  destruct (is_Mapping value && negb (is_Hashable value)) eqn:Cv.
  - destruct (HDict_from_values value) as [value'|e] eqn:Hv; [|discriminate].
    destruct (py_hashable key') eqn:Hh; [|discriminate].
    intros H. injection H as <-.
    exists key', value'. repeat split; auto.
    + now apply py_hashable_is_Hashable.
    + apply HDict_from_values_is_HDict in Hv. destruct Hv as [es ->].
      reflexivity.
  - destruct (is_Hashable value) eqn:Hv; simpl; [|discriminate].
    destruct (is_Hashable key') eqn:Hk'; simpl; [|discriminate].
    destruct (py_hashable key') eqn:Hh; [|discriminate].
    intros H. injection H as <-.
    exists key', value. repeat split; auto.
Qed.

Lemma setitem_body_hashable_key (self : Entries) (key value : PyVal) :
  py_hashable key = true ->
  setitem_body HDict_from_values self key value
  = value' <- coerce_mapping value ;;
    if is_Hashable value' then Ok (dict_store self key value')
    else Raise ValueError_value_not_hashable.
Proof.
  intros Hh. pose proof (py_hashable_is_Hashable _ Hh) as Hk.
  unfold setitem_body, coerce_mapping, dict_setitem.
  rewrite Hk, andb_false_r. simpl.
  destruct (is_Mapping value && negb (is_Hashable value)) eqn:Cv.
  - destruct (HDict_from_values value) as [value'|e] eqn:Hv; [|reflexivity].
    rewrite Hh. apply HDict_from_values_is_HDict in Hv.
    destruct Hv as [es ->]. reflexivity.
  - destruct (is_Hashable value); simpl; rewrite ?Hk; simpl; rewrite ?Hh;
      reflexivity.
Qed.

(** Only the two ValueErrors of [__setitem__] and the TypeError of the
    built-in dict come out of an insertion. *)
Lemma setitem_body_errors (self : Entries) (k x : PyVal) (e : PyError) :
  (forall e, HDict_from_values k = Raise e -> is_insertion_error e = true) ->
  (forall e, HDict_from_values x = Raise e -> is_insertion_error e = true) ->
  setitem_body HDict_from_values self k x = Raise e ->
  is_insertion_error e = true.
Proof.
  intros Pk Px. unfold setitem_body, dict_setitem.
  destruct (is_Mapping k && negb (is_Hashable k)).
  - destruct (HDict_from_values k) as [k'|ek] eqn:Ek.
    + destruct (is_Mapping x && negb (is_Hashable x)).
      * destruct (HDict_from_values x) as [x'|ex] eqn:Ex.
        -- destruct (py_hashable k'); [discriminate|].
           intros H; injection H as <-; reflexivity.
        -- intros H; injection H as <-; now apply Px.
      * destruct (is_Hashable x); simpl;
          [|intros H; injection H as <-; reflexivity].
        destruct (is_Hashable k'); simpl;
          [|intros H; injection H as <-; reflexivity].
        destruct (py_hashable k'); [discriminate|].
        intros H; injection H as <-; reflexivity.
    + intros H; injection H as <-; now apply Pk.
  - destruct (is_Mapping x && negb (is_Hashable x)).
    + destruct (HDict_from_values x) as [x'|ex] eqn:Ex.
      * destruct (py_hashable k); [discriminate|].
        intros H; injection H as <-; reflexivity.
      * intros H; injection H as <-; now apply Px.
    + destruct (is_Hashable x); simpl;
        [|intros H; injection H as <-; reflexivity].
      destruct (is_Hashable k); simpl;
        [|intros H; injection H as <-; reflexivity].
      destruct (py_hashable k); [discriminate|].
      intros H; injection H as <-; reflexivity.
Qed.

Lemma merge_values_errors (pairs : Entries) :
  Forall (fun p =>
            (forall e, HDict_from_values (fst p) = Raise e ->
                       is_insertion_error e = true)
            /\ (forall e, HDict_from_values (snd p) = Raise e ->
                          is_insertion_error e = true)) pairs ->
  forall self e, merge_values pairs self = Raise e ->
                 is_insertion_error e = true.
Proof.
  induction 1 as [|[k x] rest [Pk Px] _ IH]; intros self e; simpl;
    [discriminate|].
  destruct (setitem_body HDict_from_values self k x) as [s'|e1] eqn:S1.
  - apply IH.
  - intros H. injection H as <-. simpl in Pk, Px.
    exact (setitem_body_errors self k x e1 Pk Px S1).
Qed.

Lemma HDict_from_values_errors (v : PyVal) :
  forall e, HDict_from_values v = Raise e -> is_insertion_error e = true.
Proof.
  induction v as [ | z | s | l IH | l IH | es IH | es f IH | i r ]
    using PyVal_nested_ind; intros e; rewrite HDict_from_values_unfold;
    simpl; try discriminate;
    (destruct (merge_values es []) as [stored|e0] eqn:M; [discriminate|]);
    intros H; injection H as <-; eapply merge_values_errors; eauto.
Qed.

Lemma HDict_setitem_errors (self : HDict) (key value : PyVal) (e : PyError) :
  HDict_setitem self key value = Raise e -> is_insertion_error e = true.
Proof.
  unfold HDict_setitem.
  destruct (setitem_body HDict_from_values (hd_items self) key value)
    as [stored|e0] eqn:S1; [discriminate|].
  intros H. injection H as <-.
  eapply setitem_body_errors; eauto using HDict_from_values_errors.
Qed.


(** The same key with a value that is a plain mapping: the value is
    converted, the test of the key is skipped, and the built-in dict raises
    its TypeError. *)
Lemma setitem_unhashable_key_plain_mapping_value
    (self : HDict) (key value value' : PyVal) :
  is_Mapping key = false -> is_Hashable key = false ->
  is_Mapping value = true -> is_Hashable value = false ->
  HDict_from_values value = Ok value' ->
  HDict_setitem self key value = Raise TypeError_unhashable.
Proof.
  intros Hm Hk Hmv Hv Hc. unfold HDict_setitem, setitem_body, dict_setitem.
  rewrite Hm, Hmv, Hv, Hc. simpl.
  destruct key; simpl in *; try discriminate; reflexivity.
Qed.

(** C6, at the input where the code departs from it: the key [[1]] is a
    list, the value [{"a": 1}] is a plain dict.  The key is the only
    failure, yet the call raises the TypeError of the built-in dict and not
    the ValueError for the key. *)
Theorem setitem_list_key_dict_value :
  HDict_setitem (mkHDict [] PNone)
                (PList [PInt 1]) (PDict [(PStr "a", PInt 1)])
  = Raise TypeError_unhashable
  /\ HDict_from_values (PDict [(PStr "a", PInt 1)])
     = Ok (PHDict [(PStr "a", PInt 1)] PNone)
  /\ HDict_setitem (mkHDict [] PNone) (PList [PInt 1]) (PInt 1)
     = Raise ValueError_key_not_hashable.
Proof. repeat split; reflexivity. Qed.

(** ** JSON *)

(** C9, at the input where the code departs from it: the map
    [{"values": 1}] is rendered as the object with the one member "values",
    and loading that text binds the member to the parameter [values] of the
    constructor instead of making it an entry: the result is empty. *)
Theorem loads_to_json_key_named_values :
  let m := mkHDict [(PStr "values", PInt 1)] PNone in
  HDict_init [PStr "values"; PInt 1] PNone PNone [] = Ok m
  /\ HDict_to_json m []
     = Ok (mkJsonText [("indent", PInt 4)] (JObject [("values", JNumber 1)]))
  /\ (text <- HDict_to_json m [] ;; HDict_loads text) = Ok (mkHDict [] PNone)
  /\ py_eq (as_value (mkHDict [] PNone)) (as_value m) = false.
Proof. repeat split; reflexivity. Qed.

(** ** Lookup *)

Lemma dict_contains_Ok (es : Entries) (k : PyVal) (b : bool) :
  dict_contains es k = Ok b ->
  py_hashable k = true
  /\ b = match dict_lookup es k with Some _ => true | None => false end.
Proof.
  unfold dict_contains. destruct (py_hashable k); [|discriminate].
  intros H. injection H as <-. auto.
Qed.

(** What [__getitem__] does when the key is absent and there is a factory:
    the factory is called once, and the outcome is that of the insertion. *)
Lemma HDict_getitem_absent_factory (self : HDict) (calls : nat) (key : PyVal) :
  dict_contains (hd_items self) key = Ok false ->
  is_Callable (hd_factory self) = true ->
  HDict_getitem self calls key
  = match HDict_setitem self key (call_factory (hd_factory self) calls) with
    | Ok self' =>
        (match dict_lookup (hd_items self') key with
         | Some v => Ok v
         | None => Raise (KeyError key)
         end, self', S calls)
    | Raise e => (Raise e, self, S calls)
    end.
Proof.
  intros Hc Hf. unfold HDict_getitem. rewrite Hc, Hf. simpl.
  destruct (HDict_setitem _ _ _); [|reflexivity].
  unfold dict_getitem. apply dict_contains_Ok in Hc. destruct Hc as [-> _].
  reflexivity.
Qed.

Lemma HDict_setitem_hashable_key (self : HDict) (key value : PyVal) :
  py_hashable key = true ->
  HDict_setitem self key value
  = value' <- coerce_mapping value ;;
    if is_Hashable value'
    then Ok (mkHDict (dict_store (hd_items self) key value') (hd_factory self))
    else Raise ValueError_value_not_hashable.
Proof.
  intros Hh. unfold HDict_setitem.
  rewrite setitem_body_hashable_key by exact Hh.
  destruct (coerce_mapping value) as [v'|e]; [|reflexivity].
  destruct (is_Hashable v'); reflexivity.
Qed.

Ltac getitem_cases :=
  let k := fresh "k" in
  split; [split; [intros [k Hk] | intros [H1 H2]]
         | split; [intros e0 He | intros Hp]].

(** The outcomes of [__getitem__], by the result of the test
    [__key not in self]. *)
Lemma HDict_getitem_by_cases (self : HDict) (calls : nat) (key : PyVal) :
  let '(outcome, self', calls') := HDict_getitem self calls key in
  ((exists k, outcome = Raise (KeyError k)) <->
   (dict_contains (hd_items self) key = Ok false
    /\ is_Callable (hd_factory self) = false))
  /\ (forall e, outcome = Raise e -> self' = self)
  /\ (dict_contains (hd_items self) key = Ok true ->
      exists v, dict_lookup (hd_items self) key = Some v
                /\ outcome = Ok v /\ self' = self /\ calls' = calls).
Proof.
  unfold HDict_getitem.
  destruct (dict_contains (hd_items self) key) as [present|e] eqn:Hc.
  2:{ unfold dict_contains in Hc.
      destruct (py_hashable key); [discriminate|]. injection Hc as <-.
      getitem_cases; try discriminate; reflexivity. }
  destruct (dict_contains_Ok _ _ _ Hc) as [Hh Hp0].
  destruct present; simpl.
  - (* the key is there *)
    unfold dict_getitem. rewrite Hh.
    destruct (dict_lookup (hd_items self) key) as [v|]; [|discriminate].
    getitem_cases; try discriminate; try reflexivity.
    exists v. auto.
  - destruct (is_Callable (hd_factory self)) eqn:Hf.
    + (* absent, with a factory *)
      rewrite HDict_setitem_hashable_key by exact Hh.
      destruct (coerce_mapping (call_factory (hd_factory self) calls))
        as [v'|e] eqn:Hv.
      * destruct (is_Hashable v').
        -- unfold dict_getitem. simpl. rewrite Hh, dict_lookup_store_same.
           getitem_cases; discriminate.
        -- getitem_cases; try discriminate; reflexivity.
      * getitem_cases; try discriminate; try reflexivity.
        injection Hk as ->. unfold coerce_mapping in Hv.
        destruct (is_Mapping _ && negb _); [|discriminate].
        apply HDict_from_values_errors in Hv. discriminate.
    + (* absent, without a factory *)
      unfold dict_getitem. rewrite Hh.
      destruct (dict_lookup (hd_items self) key) as [v|]; [discriminate|].
      getitem_cases; try discriminate; try reflexivity; auto.
      exists key. reflexivity.
Qed.

Lemma dict_contains_iff (es : Entries) (k : PyVal) (b : bool) :
  dict_contains es k = Ok b <->
  py_hashable k = true /\ py_in k (keys es) = b.
Proof.
  unfold dict_contains. rewrite dict_lookup_py_in.
  destruct (py_hashable k); split.
  - intros E. injection E as <-. auto.
  - intros [_ <-]. reflexivity.
  - discriminate.
  - intros [E _]. discriminate.
Qed.

(** C5, as stated, fails: a key that is not hashable is in no map, yet its
    lookup in a map without a factory raises the TypeError of the built-in
    membership test and not KeyError. *)
Lemma getitem_unhashable_key_not_KeyError :
  let self := mkHDict [(PStr "a", PInt 1)] PNone in
  let key := PList [PInt 1] in
  py_in key (keys (hd_items self)) = false
  /\ is_Callable (hd_factory self) = false
  /\ HDict_getitem self 0 key = (Raise TypeError_unhashable, self, 0%nat)
  /\ ~ (exists k,
          fst (fst (HDict_getitem self 0 key)) = Raise (KeyError k)).
Proof.
  split; [reflexivity|]. split; [reflexivity|]. split; [reflexivity|].
  intros [k Hk]. discriminate Hk.
Qed.

(** C5, amended: [__getitem__] raises KeyError exactly when the key is
    hashable, absent, and no factory is configured; a key that is not
    hashable raises TypeError instead; whenever the lookup raises, the
    entries are what they were; when the key is present its value is
    returned, and neither the entries nor the number of factory calls
    change. *)
Theorem getitem_KeyError (self : HDict) (calls : nat) (key : PyVal) :
  let '(outcome, self', calls') := HDict_getitem self calls key in
  ((exists k, outcome = Raise (KeyError k)) <->
   (py_hashable key = true
    /\ py_in key (keys (hd_items self)) = false
    /\ is_Callable (hd_factory self) = false))
  /\ (py_hashable key = false -> outcome = Raise TypeError_unhashable)
  /\ (forall e, outcome = Raise e -> self' = self)
  /\ (py_hashable key = true ->
      py_in key (keys (hd_items self)) = true ->
      exists v, dict_lookup (hd_items self) key = Some v
                /\ outcome = Ok v /\ self' = self /\ calls' = calls).
Proof.
  pose proof (HDict_getitem_by_cases self calls key) as H.
  assert (U : py_hashable key = false ->
              HDict_getitem self calls key
              = (Raise TypeError_unhashable, self, calls)).
  { intros Hh. unfold HDict_getitem, dict_contains. now rewrite Hh. }
  pose proof (dict_contains_iff (hd_items self) key) as C.
  destruct (HDict_getitem self calls key) as [[outcome self'] calls'].
  destruct H as (H1 & H2 & H3).
  split; [rewrite H1, (C false); tauto|].
  split; [intros Hh; specialize (U Hh); now injection U as -> _ _|].
  split; [exact H2|].
  intros Hh Hin. apply H3. apply C. auto.
Qed.

Lemma getitem_KeyError_witness :
  HDict_getitem (mkHDict [(PStr "a", PInt 1)] PNone) 0 (PStr "b")
  = (Raise (KeyError (PStr "b")), mkHDict [(PStr "a", PInt 1)] PNone, 0%nat)
  /\ (exists k : PyVal,
         @Raise PyVal (KeyError (PStr "b")) = Raise (KeyError k)).
Proof.
  split; [reflexivity|].
  pose proof (getitem_KeyError
                (mkHDict [(PStr "a", PInt 1)] PNone) 0 (PStr "b")) as H.
  change (HDict_getitem (mkHDict [(PStr "a", PInt 1)] PNone) 0 (PStr "b"))
    with (@Raise PyVal (KeyError (PStr "b")),
          mkHDict [(PStr "a", PInt 1)] PNone, 0%nat) in H.
  cbv beta iota zeta in H.
  destruct H as [[_ H] _]. apply H. repeat split; reflexivity.
Defined.

(** C4, as stated, fails: with a factory that returns a list, the lookup
    of an absent key calls the factory, the insertion refuses the list, and
    the lookup raises; nothing is inserted or returned. *)
Lemma getitem_factory_returning_list :
  let self := mkHDict [] (constant_factory (PList [])) in
  is_Callable (hd_factory self) = true
  /\ dict_contains (hd_items self) (PStr "k") = Ok false
  /\ HDict_getitem self 0 (PStr "k")
     = (Raise ValueError_value_not_hashable, self, 1%nat)
  /\ ~ (exists v self',
           HDict_getitem self 0 (PStr "k") = (Ok v, self', 1%nat)
           /\ List.length (hd_items self') = S (List.length (hd_items self))).
Proof.
  repeat split.
  intros (v & self' & H & _). vm_compute in H. discriminate.
Qed.

(** C4, amended: let a factory be configured, the key be hashable and
    absent, and the coercing insertion accept what the factory returns.
    Then [__getitem__] calls the factory once, stores the coerced result
    under the key, which adds one entry, and returns the stored value; a
    second lookup of the key returns the same value, changes nothing and
    does not call the factory. *)
Theorem getitem_factory_materializes
    (self self1 : HDict) (calls : nat) (key : PyVal) :
  is_Callable (hd_factory self) = true ->
  dict_contains (hd_items self) key = Ok false ->
  HDict_setitem self key (call_factory (hd_factory self) calls) = Ok self1 ->
  exists v,
    coerce_mapping (call_factory (hd_factory self) calls) = Ok v
    /\ HDict_getitem self calls key = (Ok v, self1, S calls)
    /\ dict_lookup (hd_items self1) key = Some v
    /\ List.length (hd_items self1) = S (List.length (hd_items self))
    /\ HDict_getitem self1 (S calls) key = (Ok v, self1, S calls).
Proof.
  intros Hf Hc Hs.
  rewrite (HDict_getitem_absent_factory self calls key Hc Hf), Hs.
  destruct (dict_contains_Ok _ _ _ Hc) as [Hh Hp].
  rewrite HDict_setitem_hashable_key in Hs by exact Hh.
  destruct (coerce_mapping (call_factory (hd_factory self) calls))
    as [v|e]; [|discriminate].
  destruct (is_Hashable v); [|discriminate].
  injection Hs as <-. simpl.
  destruct (dict_lookup (hd_items self) key) eqn:Hl; [discriminate|].
  exists v. rewrite dict_lookup_store_same.
  repeat split.
  - now apply dict_store_length_absent.
  - unfold HDict_getitem, dict_contains, dict_getitem. simpl.
    now rewrite Hh, dict_lookup_store_same.
Qed.

Lemma getitem_factory_materializes_witness :
  exists v,
    coerce_mapping (PInt 0) = Ok v
    /\ HDict_getitem (mkHDict [] (constant_factory (PInt 0))) 0 (PStr "missing")
       = (Ok v, mkHDict [(PStr "missing", PInt 0)] (constant_factory (PInt 0)),
          1%nat)
    /\ dict_lookup [(PStr "missing", PInt 0)] (PStr "missing") = Some v
    /\ List.length [(PStr "missing", PInt 0)] = 1%nat
    /\ HDict_getitem
         (mkHDict [(PStr "missing", PInt 0)] (constant_factory (PInt 0)))
         1 (PStr "missing")
       = (Ok v, mkHDict [(PStr "missing", PInt 0)] (constant_factory (PInt 0)),
          1%nat).
Proof.
  apply (getitem_factory_materializes
           (mkHDict [] (constant_factory (PInt 0)))
           (mkHDict [(PStr "missing", PInt 0)] (constant_factory (PInt 0)))
           0 (PStr "missing")); reflexivity.
Defined.

(** When the insertion refuses what the factory returns, the lookup raises
    the error of the insertion and the entries are what they were. *)
Lemma getitem_factory_refused
    (self : HDict) (calls : nat) (key : PyVal) (e : PyError) :
  is_Callable (hd_factory self) = true ->
  dict_contains (hd_items self) key = Ok false ->
  HDict_setitem self key (call_factory (hd_factory self) calls) = Raise e ->
  HDict_getitem self calls key = (Raise e, self, S calls).
Proof.
  intros Hf Hc Hs.
  now rewrite (HDict_getitem_absent_factory self calls key Hc Hf), Hs.
Qed.

(** ** Distinct keys *)

Lemma py_in_false (k : PyVal) (l : list PyVal) :
  py_in k l = false <-> forall x, In x l -> py_eq x k = false.
Proof.
  unfold py_in. induction l as [|a r IH]; simpl.
  - split; [intros _ x [] | reflexivity].
  - rewrite orb_false_iff, IH. split.
    + intros [Ha Hr] x [<-|Hx]; auto.
    + intros H. split; [apply H; auto | intros x Hx; apply H; auto].
Qed.

Lemma py_in_true (k : PyVal) (l : list PyVal) :
  py_in k l = true <-> exists x, In x l /\ py_eq x k = true.
Proof. unfold py_in. apply existsb_exists. Qed.

Lemma distinct_cons (a : PyVal) (l : list PyVal) :
  distinct (a :: l) = true <->
  (forall x, In x l -> py_eq x a = false) /\ distinct l = true.
Proof.
  simpl. rewrite andb_true_iff, negb_true_iff, py_in_false. reflexivity.
Qed.

Lemma distinct_app_remove (l1 l2 : list PyVal) (b : PyVal) :
  distinct (l1 ++ b :: l2) = true -> distinct (l1 ++ l2) = true.
Proof.
  induction l1 as [|a r IH]; cbn [app].
  - rewrite distinct_cons. tauto.
  - rewrite !distinct_cons. intros [Ha Hr]. split; [|auto].
    intros x Hx. apply Ha. apply in_app_iff in Hx. apply in_app_iff.
    simpl. tauto.
Qed.

Lemma distinct_middle (l1 l2 : list PyVal) (b y : PyVal) :
  distinct (l1 ++ b :: l2) = true -> In y (l1 ++ l2) ->
  py_eq y b = false /\ py_eq b y = false.
Proof.
  assert (S : forall x z, py_eq x z = false -> py_eq z x = false)
    by (intros x z; now rewrite py_eq_sym).
  induction l1 as [|a r IH]; cbn [app].
  - rewrite distinct_cons. intros [Hb _] Hy. auto.
  - rewrite distinct_cons. intros [Ha Hr] [<-|Hy]; [|auto].
    assert (py_eq b a = false)
      by (apply Ha; apply in_app_iff; simpl; auto).
    auto.
Qed.

Lemma dict_lookup_None (es : Entries) (k : PyVal) :
  dict_lookup es k = None <-> py_in k (keys es) = false.
Proof.
  rewrite dict_lookup_py_in. destruct (dict_lookup es k); split; congruence.
Qed.

(** ** The constructor called by the insertion *)

Lemma merge_values_appends (pairs : Entries) :
  forallb (fun e => py_hashable (fst e)) pairs = true ->
  forall self stored,
    distinct (keys self ++ keys pairs) = true ->
    merge_values pairs self = Ok stored ->
    exists added, stored = self ++ added /\ Forall2 coerced_entry added pairs.
Proof.
  induction pairs as [|[k x] rest IH]; intros Hh self stored Hd; simpl.
  - intros H. injection H as <-. exists []. rewrite app_nil_r. auto.
  - simpl in Hh. apply andb_true_iff in Hh. destruct Hh as [Hk Hrest].
    rewrite setitem_body_hashable_key by exact Hk.
    destruct (coerce_mapping x) as [x'|e] eqn:Hx; [|discriminate].
    destruct (is_Hashable x') eqn:Hx'; [|discriminate].
    assert (Habs : dict_lookup self k = None).
    { apply dict_lookup_None. apply py_in_false. intros y Hy.
      simpl in Hd.
      destruct (in_split _ _ Hy) as (l1 & l2 & E). rewrite E in Hd.
      rewrite <- app_assoc in Hd. cbn [app] in Hd.
      apply (distinct_middle l1 (l2 ++ k :: keys rest) y k Hd).
      apply in_app_iff. right. apply in_app_iff. simpl. auto. }
    rewrite (dict_store_absent _ _ _ Habs).
    intros Hm. apply IH in Hm; [|exact Hrest|].
    + destruct Hm as (added & -> & HF).
      exists ((k, x') :: added). rewrite <- app_assoc. split; [reflexivity|].
      constructor; [|exact HF]. repeat split; assumption.
    + unfold keys in *. rewrite map_app, <- app_assoc. exact Hd.
Qed.

Lemma coerced_entries_eqb (stored es : Entries) :
  Forall2 (fun s p => fst s = fst p /\ py_eq (snd s) (snd p) = true) stored es ->
  entries_eqb stored es = true.
Proof.
  intros HF. apply entries_eqb_spec. unfold entry_match.
  induction HF as [|s p stored es [Hk Hv] _ [IH1 IH2]].
  - split; intros x [].
  - split.
    + intros x [<-|Hx].
      * exists p. split; [simpl; auto|]. now rewrite Hk, py_eq_refl, Hv.
      * destruct (IH1 x Hx) as (q & Hq & Hm). exists q. simpl. auto.
    + intros y [<-|Hy].
      * exists s. split; [simpl; auto|]. now rewrite Hk, py_eq_refl, Hv.
      * destruct (IH2 y Hy) as (q & Hq & Hm). exists q. simpl. auto.
Qed.

Lemma well_formed_mapping (v : PyVal) :
  is_Mapping v = true ->
  well_formed v = well_formed_entries (items v).
Proof. destruct v; try discriminate; reflexivity. Qed.

Lemma coerced_entries_equal (added es : Entries) :
  Forall2 coerced_entry added es ->
  (forall p, In p es ->
     forall h, is_Mapping (snd p) = true -> HDict_from_values (snd p) = Ok h ->
               py_eq h (snd p) = true) ->
  Forall2 (fun s p => fst s = fst p /\ py_eq (snd s) (snd p) = true) added es.
Proof.
  induction 1 as [|s p added es [Hk [Hc Hh]] _ IH]; intros Heq;
    constructor.
  - split; [exact Hk|]. unfold coerce_mapping in Hc.
    destruct (is_Mapping (snd p) && negb (is_Hashable (snd p))) eqn:C.
    + apply andb_true_iff in C. destruct C as [C _].
      apply (Heq p); simpl; auto.
    + injection Hc as <-. apply py_eq_refl.
  - apply IH. intros q Hq. apply Heq. simpl. auto.
Qed.

Lemma well_formed_entries_parts (es : Entries) :
  well_formed_entries es = true ->
  forallb (fun e => py_hashable (fst e)) es = true
  /\ distinct (keys es) = true
  /\ (forall p, In p es ->
        well_formed (fst p) = true /\ well_formed (snd p) = true
        /\ py_hashable (fst p) = true).
Proof.
  unfold well_formed_entries. rewrite andb_true_iff, !forallb_forall.
  intros [Hall Hd].
  assert (G : forall p, In p es ->
                well_formed (fst p) = true /\ well_formed (snd p) = true
                /\ py_hashable (fst p) = true).
  { intros p Hp. specialize (Hall p Hp).
    rewrite !andb_true_iff in Hall. tauto. }
  split; [intros x Hx; now apply G | split; [exact Hd | exact G]].
Qed.

Lemma merge_values_equal (es : Entries) :
  Forall (fun e =>
            well_formed (snd e) = true -> is_Mapping (snd e) = true ->
            forall h, HDict_from_values (snd e) = Ok h ->
                      py_eq h (snd e) = true) es ->
  well_formed_entries es = true ->
  forall stored, merge_values es [] = Ok stored ->
                 entries_eqb stored es = true.
Proof.
  intros IH Hwf stored M. rewrite Forall_forall in IH.
  destruct (well_formed_entries_parts es Hwf) as (Hh & Hd & Hp).
  apply merge_values_appends in M; [|exact Hh|exact Hd].
  destruct M as (added & -> & HF). cbn [app].
  apply coerced_entries_eqb. apply coerced_entries_equal; [exact HF|].
  intros p Hin h Hm Hc. apply (IH p Hin); auto. now apply Hp.
Qed.

(** The instance built from a mapping holds the entries of the mapping:
    the two compare equal. *)
Lemma HDict_from_values_equal (v : PyVal) :
  well_formed v = true -> is_Mapping v = true ->
  forall h, HDict_from_values v = Ok h -> py_eq h v = true.
Proof.
  induction v as [ | z | s | l IH | l IH | es IH | es f IH | i r ]
    using PyVal_nested_ind; intros Hwf Hm h; try discriminate;
    rewrite HDict_from_values_unfold; cbn [is_Mapping items];
    (destruct (merge_values es []) as [stored|e] eqn:M; [|discriminate]);
    intros H; injection H as <-;
    rewrite py_eq_mappings by reflexivity; cbn [items];
    rewrite well_formed_mapping in Hwf by reflexivity;
    (apply merge_values_equal; [|exact Hwf|exact M]);
    (eapply Forall_impl; [|exact IH]); cbv beta; tauto.
Qed.

Lemma dict_store_In (es : Entries) (k v : PyVal) :
  exists k0, In (k0, v) (dict_store es k v) /\ py_eq k0 k = true
             /\ (dict_lookup es k = None -> k0 = k).
Proof.
  induction es as [|[k1 v1] rest IH]; simpl.
  - exists k. rewrite py_eq_refl. auto.
  - destruct (py_eq k1 k) eqn:E.
    + exists k1. simpl. repeat split; auto. discriminate.
    + destruct IH as (k0 & Hin & Heq & Habs). exists k0. simpl. auto.
Qed.

Lemma coerce_mapping_plain (v v' : PyVal) :
  well_formed v = true ->
  is_Mapping v = true -> is_Hashable v = false ->
  coerce_mapping v = Ok v' ->
  HDict_from_values v = Ok v' /\ (exists es, v' = PHDict es PNone)
  /\ py_eq v' v = true.
Proof.
  intros Hwf Hm Hh. unfold coerce_mapping. rewrite Hm, Hh. simpl.
  intros Hc. split; [exact Hc|]. split.
  - eapply HDict_from_values_is_HDict; eauto.
  - eapply HDict_from_values_equal; eauto.
Qed.

(** C2: after a successful [self[key] = value], the slot of the key holds
    the value; a key or a value that is a mapping and not hashable has been
    replaced by the instance that the constructor builds from it, an
    [HDict] equal to the mapping (it holds the same entries); a key or a
    value that is hashable, an [HDict] included, is stored as it is.  (When
    an equal key was already there, the built-in dict keeps that key and
    replaces the value.) *)
Theorem setitem_coerces_mappings
    (self self' : HDict) (key value : PyVal) :
  well_formed key = true -> well_formed value = true ->
  HDict_setitem self key value = Ok self' ->
  exists key' value',
    hd_items self' = dict_store (hd_items self) key' value'
    /\ hd_factory self' = hd_factory self
    /\ dict_lookup (hd_items self') key' = Some value'
    /\ (exists k0, In (k0, value') (hd_items self') /\ py_eq k0 key' = true
                   /\ (dict_lookup (hd_items self) key' = None -> k0 = key'))
    /\ (is_Mapping key = true -> is_Hashable key = false ->
        HDict_from_values key = Ok key'
        /\ (exists es, key' = PHDict es PNone) /\ py_eq key' key = true)
    /\ (is_Mapping value = true -> is_Hashable value = false ->
        HDict_from_values value = Ok value'
        /\ (exists es, value' = PHDict es PNone) /\ py_eq value' value = true)
    /\ (is_Hashable key = true -> key' = key)
    /\ (is_Hashable value = true -> value' = value).
Proof.
  intros Hwk Hwv. unfold HDict_setitem.
  destruct (setitem_body HDict_from_values (hd_items self) key value)
    as [stored|e] eqn:Hs; [|discriminate].
  intros H. injection H as <-. cbn [hd_items hd_factory].
  apply setitem_body_Ok in Hs.
  destruct Hs as (key' & value' & Hck & Hcv & _ & _ & _ & ->).
  exists key', value'.
  split; [reflexivity|]. split; [reflexivity|].
  split; [apply dict_lookup_store_same|].
  split; [apply dict_store_In|].
  split; [intros; now apply coerce_mapping_plain|].
  split; [intros; now apply coerce_mapping_plain|].
  split; intros Hh; rewrite (coerce_mapping_hashable _ Hh) in *; congruence.
Qed.

Lemma setitem_coerces_mappings_witness :
  let key := PDict [(PStr "x", PInt 1)] in
  let value := PDict [(PStr "y", PDict [(PStr "z", PInt 2)])] in
  let self' :=
      mkHDict [(PHDict [(PStr "x", PInt 1)] PNone,
                PHDict [(PStr "y", PHDict [(PStr "z", PInt 2)] PNone)] PNone)]
              PNone in
  HDict_setitem (mkHDict [] PNone) key value = Ok self'
  /\ exists key' value',
      hd_items self' = dict_store [] key' value'
      /\ hd_factory self' = PNone
      /\ dict_lookup (hd_items self') key' = Some value'
      /\ (exists k0, In (k0, value') (hd_items self') /\ py_eq k0 key' = true
                     /\ (dict_lookup [] key' = None -> k0 = key'))
      /\ (is_Mapping key = true -> is_Hashable key = false ->
          HDict_from_values key = Ok key'
          /\ (exists es, key' = PHDict es PNone) /\ py_eq key' key = true)
      /\ (is_Mapping value = true -> is_Hashable value = false ->
          HDict_from_values value = Ok value'
          /\ (exists es, value' = PHDict es PNone)
          /\ py_eq value' value = true)
      /\ (is_Hashable key = true -> key' = key)
      /\ (is_Hashable value = true -> value' = value).
Proof.
  split; [reflexivity|].
  apply (setitem_coerces_mappings (mkHDict [] PNone)); reflexivity.
Defined.

(** ** Merging a batch of entries *)

Lemma HDict_setitems_keeps (pairs : Entries) :
  forallb (fun e => py_hashable (fst e)) pairs = true ->
  forall self d k,
    HDict_setitems self pairs = Ok d ->
    py_in k (keys pairs) = false ->
    dict_lookup (hd_items d) k = dict_lookup (hd_items self) k.
Proof.
  induction pairs as [|[k0 v0] rest IH]; intros Hh self d k; simpl.
  - intros H _. now injection H as <-.
  - simpl in Hh. apply andb_true_iff in Hh. destruct Hh as [Hk0 Hrest].
    rewrite HDict_setitem_hashable_key by exact Hk0.
    destruct (coerce_mapping v0) as [v0'|e]; [|discriminate].
    destruct (is_Hashable v0'); [|discriminate].
    intros Hm Hin. apply orb_false_iff in Hin. destruct Hin as [Hne Hin].
    rewrite (IH Hrest _ _ _ Hm Hin). simpl.
    now apply dict_lookup_store_other.
Qed.

(** Of a batch whose keys are pairwise different, every entry is found in
    the result, with its value coerced. *)
Lemma HDict_setitems_last_wins (pairs : Entries) :
  forallb (fun e => py_hashable (fst e)) pairs = true ->
  distinct (keys pairs) = true ->
  forall self d,
    HDict_setitems self pairs = Ok d ->
    forall k v, In (k, v) pairs ->
      exists v', coerce_mapping v = Ok v'
                 /\ dict_lookup (hd_items d) k = Some v'.
Proof.
  induction pairs as [|[k0 v0] rest IH]; intros Hh Hd self d Hm k v Hin;
    [destruct Hin|].
  simpl in Hh. apply andb_true_iff in Hh. destruct Hh as [Hk0 Hrest].
  simpl in Hd. apply andb_true_iff in Hd. destruct Hd as [Hnew Hd].
  apply negb_true_iff in Hnew.
  simpl in Hm. destruct (HDict_setitem self k0 v0) as [self1|e] eqn:Hs;
    [|discriminate].
  destruct Hin as [Heq|Hin].
  - injection Heq as <- <-.
    rewrite (HDict_setitems_keeps rest Hrest _ _ _ Hm Hnew).
    rewrite HDict_setitem_hashable_key in Hs by exact Hk0.
    destruct (coerce_mapping v0) as [v0'|e]; [|discriminate].
    destruct (is_Hashable v0'); [|discriminate].
    injection Hs as <-. exists v0'. simpl.
    now rewrite dict_lookup_store_same.
  - eapply IH; eauto.
Qed.

Lemma dict_store_all_Hashable (es : Entries) (k v : PyVal) :
  all_Hashable es -> is_Hashable k = true -> is_Hashable v = true ->
  all_Hashable (dict_store es k v).
Proof.
  unfold all_Hashable. intros Hes Hk Hv.
  induction es as [|[k0 v0] rest IH]; simpl.
  - intros k1 v1 [H|[]]. injection H as <- <-. auto.
  - assert (H0 : is_Hashable k0 = true /\ is_Hashable v0 = true)
      by (apply Hes; simpl; auto).
    assert (Hr : forall k1 v1, In (k1, v1) rest ->
                  is_Hashable k1 = true /\ is_Hashable v1 = true)
      by (intros; apply Hes; simpl; auto).
    destruct (py_eq k0 k); intros k1 v1 [H|H].
    + injection H as <- <-. tauto.
    + auto.
    + injection H as <- <-. exact H0.
    + now apply IH.
Qed.

(** Invariant I1 is kept by every batch: all that is stored went through
    the insertion. *)
Lemma HDict_setitems_all_Hashable (pairs : Entries) :
  forall self d,
    all_Hashable (hd_items self) ->
    HDict_setitems self pairs = Ok d ->
    all_Hashable (hd_items d).
Proof.
  induction pairs as [|[k0 v0] rest IH]; intros self d Hself; simpl.
  - intros H. now injection H as <-.
  - destruct (HDict_setitem self k0 v0) as [self1|e] eqn:Hs; [|discriminate].
    apply IH. unfold HDict_setitem in Hs.
    destruct (setitem_body HDict_from_values (hd_items self) k0 v0)
      as [stored|e] eqn:Hb; [|discriminate].
    injection Hs as <-. simpl.
    apply setitem_body_Ok in Hb.
    destruct Hb as (k' & v' & _ & _ & Hk & Hv & _ & ->).
    now apply dict_store_all_Hashable.
Qed.

(** C8: the entries of [values] are inserted last, after those that come
    from the positional and keyword arguments, and by the same coercing
    insertion: every key of [values] ends with the (coerced) value that
    [values] gives it, and nothing but hashable keys and values is
    stored. *)
Theorem values_are_merged_last
    (args : list PyVal) (values factory : PyVal) (kwargs : Entries)
    (d : HDict) :
  is_Mapping values = true -> well_formed values = true ->
  HDict_init args values factory kwargs = Ok d ->
  (exists kwargs' self1,
      merge_positional args kwargs = Ok kwargs'
      /\ HDict_setitems (mkHDict [] factory) kwargs' = Ok self1
      /\ HDict_setitems self1 (items values) = Ok d)
  /\ (forall k v, In (k, v) (items values) ->
        exists v', coerce_mapping v = Ok v'
                   /\ dict_lookup (hd_items d) k = Some v')
  /\ all_Hashable (hd_items d).
Proof.
  intros Hm Hwf. unfold HDict_init.
  destruct (merge_positional args kwargs) as [kwargs'|e] eqn:H1;
    [|discriminate].
  destruct (HDict_setitems (mkHDict [] factory) kwargs') as [self1|e] eqn:H2;
    [|discriminate].
  rewrite Hm. intros H3.
  rewrite well_formed_mapping in Hwf by exact Hm.
  destruct (well_formed_entries_parts _ Hwf) as (Hh & Hd & _).
  split; [exists kwargs', self1; auto|]. split.
  - now apply (HDict_setitems_last_wins (items values) Hh Hd self1 d H3).
  - apply (HDict_setitems_all_Hashable _ _ _) in H2.
    + now apply (HDict_setitems_all_Hashable _ _ _ H2) in H3.
    + intros k v [].
Qed.

Lemma values_are_merged_last_witness :
  let values := PDict [(PStr "a", PDict [(PStr "n", PInt 3)]);
                       (PStr "b", PInt 4)] in
  let d := mkHDict [(PStr "b", PInt 4);
                    (PStr "a", PHDict [(PStr "n", PInt 3)] PNone)] PNone in
  HDict_init [PStr "a"; PInt 1] values PNone [(PStr "b", PInt 2)] = Ok d
  /\ (forall k v, In (k, v) (items values) ->
        exists v', coerce_mapping v = Ok v'
                   /\ dict_lookup (hd_items d) k = Some v')
  /\ all_Hashable (hd_items d).
Proof.
  split; [reflexivity|].
  apply (values_are_merged_last
           [PStr "a"; PInt 1]
           (PDict [(PStr "a", PDict [(PStr "n", PInt 3)]); (PStr "b", PInt 4)])
           PNone [(PStr "b", PInt 2)]); reflexivity.
Defined.

(** ** Hashing *)

Lemma set_add_all_distinct (l : list PyVal) :
  forallb py_hashable l = true ->
  forall members,
    distinct (members ++ l) = true ->
    set_add_all members l = Ok (members ++ l).
Proof.
  induction l as [|x rest IH]; intros Hh members Hd; simpl.
  - now rewrite app_nil_r.
  - simpl in Hh. apply andb_true_iff in Hh. destruct Hh as [Hx Hrest].
    rewrite Hx.
    assert (Hnew : py_in x members = false).
    { apply py_in_false. intros m Hm.
      apply (distinct_middle members rest x m Hd).
      apply in_app_iff. auto. }
    unfold py_in in Hnew. rewrite Hnew.
    rewrite IH; [now rewrite <- app_assoc | exact Hrest |].
    now rewrite <- app_assoc.
Qed.

(** The frozenset of the keys of a dict has the keys as its members. *)
Lemma frozenset_keys (es : Entries) :
  well_formed_entries es = true -> frozenset (keys es) = Ok (keys es).
Proof.
  intros Hwf. destruct (well_formed_entries_parts es Hwf) as (Hh & Hd & _).
  unfold frozenset. rewrite set_add_all_distinct; [reflexivity| |exact Hd].
  unfold keys. rewrite forallb_forall in *. intros k Hk.
  apply in_map_iff in Hk. destruct Hk as (p & <- & Hp). now apply Hh.
Qed.

(** Two lists of pairwise different items, each item of one equal to some
    item of the other, are the same up to order and equality. *)
Lemma matched_perm (h : PyVal -> Z) (l1 : list PyVal) :
  forall l2,
    distinct l1 = true -> distinct l2 = true ->
    (forall x, In x l1 -> exists y, In y l2 /\ py_eq x y = true) ->
    (forall y, In y l2 -> exists x, In x l1 /\ py_eq x y = true) ->
    (forall x y, In x l1 -> In y l2 -> py_eq x y = true -> h x = h y) ->
    Permutation (map h l1) (map h l2).
Proof.
  induction l1 as [|a r IH]; intros l2 D1 D2 I12 I21 Hh.
  - destruct l2 as [|y l2]; [constructor|].
    destruct (I21 y (or_introl eq_refl)) as (x & [] & _).
  - destruct (I12 a (or_introl eq_refl)) as (b & Hb & Hab).
    destruct (in_split _ _ Hb) as (l2a & l2b & ->).
    apply distinct_cons in D1. destruct D1 as [Da Dr].
    rewrite map_app. cbn [map]. rewrite <- (Hh a b (or_introl eq_refl) Hb Hab).
    apply Permutation_cons_app. rewrite <- map_app.
    apply IH.
    + exact Dr.
    + eapply distinct_app_remove; eauto.
    + intros x Hx. destruct (I12 x (or_intror Hx)) as (y & Hy & Hxy).
      exists y. split; [|exact Hxy].
      apply in_app_iff in Hy. apply in_app_iff.
      destruct Hy as [Hy|[<-|Hy]]; auto.
      exfalso. rewrite py_eq_sym in Hab. pose proof (Da x Hx) as F.
      rewrite (py_eq_trans _ _ _ Hxy Hab) in F. discriminate.
    + intros y Hy.
      assert (Hy' : In y (l2a ++ b :: l2b)).
      { apply in_app_iff in Hy. apply in_app_iff. simpl. tauto. }
      destruct (I21 y Hy') as (x & [<-|Hx] & Hxy); [|eauto].
      exfalso. destruct (distinct_middle _ _ _ _ D2 Hy) as [Hyb _].
      rewrite py_eq_sym in Hxy.
      rewrite (py_eq_trans _ _ _ Hxy Hab) in Hyb. discriminate.
    + intros x y Hx Hy. apply Hh; [simpl; auto|].
      apply in_app_iff in Hy. apply in_app_iff. simpl. tauto.
Qed.

Section HashingProperties.
Variable hash_none : Z.
Variable hash_int : Z -> Z.
Variable hash_str : string -> Z.
Variable hash_func : nat -> Z.
Variable hash_tuple : list Z -> Z.
Variable shuffle_bits : Z -> Z.
Variable finish : nat -> Z -> Z.

Local Abbreviation hv :=
  (hash_value hash_none hash_int hash_str hash_func hash_tuple
              shuffle_bits finish).
Local Abbreviation set_hash := (hash_of_set shuffle_bits finish).

(** The hash of a set does not depend on the order of the members. *)
Lemma xor_shuffled_perm (l1 l2 : list Z) :
  Permutation l1 l2 ->
  xor_shuffled shuffle_bits l1 = xor_shuffled shuffle_bits l2.
Proof.
  induction 1 as [|x l1 l2 _ IH|x y l|l1 l2 l3 _ IH1 _ IH2]; simpl.
  - reflexivity.
  - now rewrite IH.
  - rewrite <- !Z.lxor_assoc. f_equal. apply Z.lxor_comm.
  - congruence.
Qed.

Lemma hash_of_set_perm (l1 l2 : list Z) :
  Permutation l1 l2 -> set_hash l1 = set_hash l2.
Proof.
  intros HP. unfold hash_of_set.
  now rewrite (Permutation_length HP), (xor_shuffled_perm l1 l2 HP).
Qed.

Lemma hash_values_eq (l1 : list PyVal) :
  Forall (fun x => forall y,
              well_formed x = true -> well_formed y = true ->
              py_hashable x = true -> py_hashable y = true ->
              py_eq x y = true -> hv x = hv y) l1 ->
  forall l2,
    forallb well_formed l1 = true -> forallb well_formed l2 = true ->
    forallb py_hashable l1 = true -> forallb py_hashable l2 = true ->
    list_eqb py_eq l1 l2 = true ->
    map hv l1 = map hv l2.
Proof.
  induction 1 as [|x r Hx _ IH]; intros [|y l2]; simpl; try discriminate;
    [reflexivity|].
  rewrite !andb_true_iff.
  intros [W1 W1'] [W2 W2'] [H1 H1'] [H2 H2'] [E E'].
  f_equal; [apply Hx | apply IH]; assumption.
Qed.

(** Equal values have equal hashes. *)
Lemma hash_value_eq (a : PyVal) :
  forall b,
    well_formed a = true -> well_formed b = true ->
    py_hashable a = true -> py_hashable b = true ->
    py_eq a b = true -> hv a = hv b.
Proof.
  induction a as [ | z | s | l IH | l IH | es IH | es f IH | i r ]
    using PyVal_nested_ind; intros b Wa Wb Ha Hb; destruct b;
    try discriminate; simpl.
  - reflexivity.
  - rewrite Z.eqb_eq. congruence.
  - rewrite String.eqb_eq. congruence.
  - intros E. f_equal. now apply hash_values_eq.
  - (* two HDicts *)
    intros E. change (entries_eqb es entries = true) in E.
    apply entries_eqb_spec in E. destruct E as [E1 E2].
    change (well_formed_entries es = true) in Wa.
    change (well_formed_entries entries = true) in Wb.
    destruct (well_formed_entries_parts _ Wa) as (_ & Da & Pa).
    destruct (well_formed_entries_parts _ Wb) as (_ & Db & Pb).
    rewrite Forall_forall in IH.
    rewrite <- (map_map fst hv es), <- (map_map fst hv entries).
    apply hash_of_set_perm. apply matched_perm.
    + exact Da.
    + exact Db.
    + intros x Hx. apply in_map_iff in Hx. destruct Hx as (p & <- & Hp).
      destruct (E1 p Hp) as (q & Hq & Hm).
      apply andb_true_iff in Hm. exists (fst q). split; [|tauto].
      now apply in_map.
    + intros y Hy. apply in_map_iff in Hy. destruct Hy as (q & <- & Hq).
      destruct (E2 q Hq) as (p & Hp & Hm).
      apply andb_true_iff in Hm. exists (fst p). split; [|tauto].
      now apply in_map.
    + intros x y Hx Hy Hxy.
      apply in_map_iff in Hx. destruct Hx as (p & <- & Hp).
      apply in_map_iff in Hy. destruct Hy as (q & <- & Hq).
      apply (proj1 (IH p Hp)); auto; try apply (Pa p Hp); apply (Pb q Hq).
  - rewrite Nat.eqb_eq. congruence.
Qed.

(** [HDict.__hash__] is the hash that an instance has when it is a key. *)
Lemma HDict_hash_as_value (d : HDict) :
  well_formed (as_value d) = true ->
  HDict_hash hash_none hash_int hash_str hash_func hash_tuple
             shuffle_bits finish d
  = py_hash hash_none hash_int hash_str hash_func hash_tuple
            shuffle_bits finish (as_value d).
Proof.
  intros Hwf. change (well_formed_entries (hd_items d) = true) in Hwf.
  unfold HDict_hash, py_hash. rewrite (frozenset_keys _ Hwf).
  destruct (well_formed_entries_parts _ Hwf) as (Hh & _ & _).
  unfold as_value. cbn [py_hashable]. rewrite Hh.
  unfold hash_frozenset, keys. cbn [hash_value]. now rewrite map_map.
Qed.

(** C1: the hash of an instance is the hash of the frozenset of its keys;
    two instances with the same key set have the same hash, whatever the
    order of insertion, the values and the factories. *)
Theorem hash_depends_on_key_set_only (d1 d2 : HDict) :
  well_formed (as_value d1) = true ->
  well_formed (as_value d2) = true ->
  same_key_set d1 d2 ->
  exists members,
    frozenset (keys (hd_items d1)) = Ok members
    /\ HDict_hash hash_none hash_int hash_str hash_func hash_tuple
                  shuffle_bits finish d1
       = Ok (hash_frozenset hash_none hash_int hash_str hash_func hash_tuple
                            shuffle_bits finish members)
    /\ HDict_hash hash_none hash_int hash_str hash_func hash_tuple
                  shuffle_bits finish d2
       = Ok (hash_frozenset hash_none hash_int hash_str hash_func hash_tuple
                            shuffle_bits finish members).
Proof.
  intros W1 W2 Hsame.
  change (well_formed_entries (hd_items d1) = true) in W1.
  change (well_formed_entries (hd_items d2) = true) in W2.
  exists (keys (hd_items d1)). unfold HDict_hash.
  rewrite (frozenset_keys _ W1), (frozenset_keys _ W2).
  split; [reflexivity|]. split; [reflexivity|]. f_equal.
  unfold hash_frozenset. apply hash_of_set_perm. apply matched_perm.
  - apply (well_formed_entries_parts _ W2).
  - apply (well_formed_entries_parts _ W1).
  - intros x Hx.
    assert (Hin : py_in x (keys (hd_items d1)) = true).
    { rewrite Hsame. apply py_in_true. exists x. now rewrite py_eq_refl. }
    apply py_in_true in Hin. destruct Hin as (y & Hy & Hyx).
    exists y. now rewrite py_eq_sym.
  - intros y Hy.
    assert (Hin : py_in y (keys (hd_items d2)) = true).
    { rewrite <- Hsame. apply py_in_true. exists y. now rewrite py_eq_refl. }
    apply py_in_true in Hin. destruct Hin as (x & Hx & Hxy).
    exists x. auto.
  - intros x y Hx Hy Hxy.
    destruct (well_formed_entries_parts _ W1) as (_ & _ & P1).
    destruct (well_formed_entries_parts _ W2) as (_ & _ & P2).
    unfold keys in Hx, Hy.
    apply in_map_iff in Hx. destruct Hx as (p & <- & Hp).
    apply in_map_iff in Hy. destruct Hy as (q & <- & Hq).
    apply hash_value_eq; auto; try apply (P2 p Hp); apply (P1 q Hq).
Qed.
End HashingProperties.

Lemma hash_depends_on_key_set_only_witness :
  let d1 := mkHDict [(PStr "a", PInt 1); (PStr "bb", PInt 2)] PNone in
  let d2 := mkHDict [(PStr "bb", PInt 5); (PStr "a", PList [])]
                    (constant_factory (PInt 0)) in
  let hash := HDict_hash 0 (fun z => z) (fun s => Z.of_nat (String.length s))
                         Z.of_nat (fun l => fold_right Z.add 0 l)
                         (fun h => h * 3 + 1) (fun n x => x + Z.of_nat n) in
  hash d1 = hash d2.
Proof.
  intros d1 d2 hash.
  destruct (hash_depends_on_key_set_only
              0 (fun z => z) (fun s => Z.of_nat (String.length s))
              Z.of_nat (fun l => fold_right Z.add 0 l)
              (fun h => h * 3 + 1) (fun n x => x + Z.of_nat n) d1 d2)
    as (members & _ & H1 & H2).
  - reflexivity.
  - reflexivity.
  - intros k. unfold keys. simpl. rewrite !orb_false_r. apply orb_comm.
  - unfold hash. now rewrite H1, H2.
Defined.

(** ** Well-formedness is kept *)

Lemma well_formed_entries_iff (es : Entries) :
  well_formed_entries es = true <->
  distinct (keys es) = true
  /\ (forall p, In p es ->
        well_formed (fst p) = true /\ well_formed (snd p) = true
        /\ py_hashable (fst p) = true).
Proof.
  split.
  - intros H. destruct (well_formed_entries_parts es H) as (_ & Hd & Hp). auto.
  - intros [Hd Hp]. unfold well_formed_entries.
    apply andb_true_iff. split; [|exact Hd].
    apply forallb_forall. intros p Hin. destruct (Hp p Hin) as (A & B & C).
    now rewrite A, B, C.
Qed.

Lemma distinct_snoc (l : list PyVal) (k : PyVal) :
  distinct l = true -> py_in k l = false -> distinct (l ++ [k]) = true.
Proof.
  induction l as [|a r IH]; cbn [app]; [reflexivity|].
  rewrite !distinct_cons, py_in_false. intros [Ha Hr] Hk. split.
  - intros x Hx. apply in_app_iff in Hx. destruct Hx as [Hx|[<-|[]]]; auto.
    rewrite py_eq_sym. apply Hk. simpl. auto.
  - apply IH; [exact Hr|]. apply py_in_false. intros x Hx. apply Hk.
    simpl. auto.
Qed.

Lemma dict_store_members (es : Entries) (k v : PyVal) (p : PyVal * PyVal) :
  In p (dict_store es k v) ->
  In p es \/ (snd p = v /\ (fst p = k \/ exists v0, In (fst p, v0) es)).
Proof.
  induction es as [|[k0 v0] rest IH]; simpl.
  - intros [<-|[]]. simpl. auto.
  - destruct (py_eq k0 k).
    + intros [<-|H]; simpl; [|auto]. right. split; [reflexivity|]. eauto.
    + intros [<-|H]; [auto|]. destruct (IH H) as [H1|[H1 [H2|[w H2]]]]; eauto 7.
Qed.

Lemma dict_store_well_formed (es : Entries) (k v : PyVal) :
  well_formed_entries es = true ->
  well_formed k = true -> py_hashable k = true -> well_formed v = true ->
  well_formed_entries (dict_store es k v) = true.
Proof.
  rewrite !well_formed_entries_iff. intros [Hd Hp] Wk Hk Wv. split.
  - destruct (dict_lookup es k) as [w|] eqn:L.
    + now rewrite (proj1 (dict_store_present es k v w L)).
    + rewrite (dict_store_absent es k v L). unfold keys. rewrite map_app.
      apply distinct_snoc; [exact Hd|]. now apply dict_lookup_None.
  - intros p Hin. apply dict_store_members in Hin.
    destruct Hin as [Hin|[Hv [Hk0|[v0 Hin]]]]; [now apply Hp| |].
    + rewrite Hv, Hk0. auto.
    + rewrite Hv. specialize (Hp _ Hin). simpl in Hp. tauto.
Qed.

Lemma setitem_body_well_formed (self stored : Entries) (key value : PyVal) :
  (forall h, HDict_from_values key = Ok h -> well_formed h = true) ->
  (forall h, HDict_from_values value = Ok h -> well_formed h = true) ->
  well_formed key = true -> well_formed value = true ->
  well_formed_entries self = true ->
  setitem_body HDict_from_values self key value = Ok stored ->
  well_formed_entries stored = true.
Proof.
  intros Pk Pv Wk Wv Ws Hs. apply setitem_body_Ok in Hs.
  destruct Hs as (k' & v' & Hck & Hcv & _ & _ & Hh & ->).
  apply dict_store_well_formed; auto.
  - unfold coerce_mapping in Hck.
    destruct (is_Mapping key && negb (is_Hashable key)); [auto|congruence].
  - unfold coerce_mapping in Hcv.
    destruct (is_Mapping value && negb (is_Hashable value)); [auto|congruence].
Qed.

Lemma merge_values_well_formed (pairs : Entries) :
  Forall (fun e =>
            (forall h, HDict_from_values (fst e) = Ok h -> well_formed h = true)
            /\ (forall h, HDict_from_values (snd e) = Ok h ->
                          well_formed h = true)) pairs ->
  well_formed_pairs pairs ->
  forall self stored,
    well_formed_entries self = true ->
    merge_values pairs self = Ok stored ->
    well_formed_entries stored = true.
Proof.
  induction 1 as [|[k x] rest [Pk Px] _ IH]; intros Wp self stored Ws; simpl.
  - intros H. now injection H as <-.
  - destruct (setitem_body HDict_from_values self k x) as [s1|e] eqn:Hs;
      [|discriminate].
    apply IH; [intros p Hp; apply Wp; simpl; auto|].
    destruct (Wp (k, x) (or_introl eq_refl)) as [Wk Wx].
    simpl in Pk, Px, Wk, Wx.
    exact (setitem_body_well_formed self s1 k x Pk Px Wk Wx Ws Hs).
Qed.

Lemma well_formed_entries_pairs (es : Entries) :
  well_formed_entries es = true -> well_formed_pairs es.
Proof.
  intros H p Hp. apply well_formed_entries_iff in H. destruct H as [_ H].
  specialize (H p Hp). tauto.
Qed.

(** The instance that the constructor builds from a well-formed value is
    well formed. *)
Lemma HDict_from_values_well_formed (v : PyVal) :
  well_formed v = true ->
  forall h, HDict_from_values v = Ok h -> well_formed h = true.
Proof.
  induction v as [ | z | s | l IH | l IH | es IH | es f IH | i r ]
    using PyVal_nested_ind; intros Hwf h; rewrite HDict_from_values_unfold;
    cbn [is_Mapping items];
    try (intros H; injection H as <-; reflexivity);
    (destruct (merge_values es []) as [stored|e] eqn:M; [|discriminate]);
    intros H; injection H as <-;
    change (well_formed_entries stored = true);
    change (well_formed_entries es = true) in Hwf;
    pose proof (well_formed_entries_pairs es Hwf) as Wp;
    refine (merge_values_well_formed es _ Wp [] stored eq_refl M);
    rewrite Forall_forall in IH |- *; intros p Hp;
    destruct (Wp p Hp); destruct (IH p Hp); auto.
Qed.

Lemma HDict_setitems_merge_values (pairs : Entries) :
  forall self factory,
    HDict_setitems (mkHDict self factory) pairs
    = stored <- merge_values pairs self ;; Ok (mkHDict stored factory).
Proof.
  induction pairs as [|[k x] rest IH]; intros self factory; simpl;
    [reflexivity|].
  unfold HDict_setitem. simpl.
  destruct (setitem_body HDict_from_values self k x); [apply IH|reflexivity].
Qed.

(** The constructor of the model, [HDict_from_values], is the constructor
    of the class called with [values] only: the call that [__setitem__]
    makes. *)
Lemma HDict_init_values_only (values : PyVal) :
  match HDict_init [] values PNone [] with
  | Ok d => Ok (as_value d)
  | Raise e => Raise e
  end = HDict_from_values values.
Proof.
  rewrite HDict_from_values_unfold. unfold HDict_init. simpl.
  destruct (is_Mapping values); [|reflexivity].
  rewrite HDict_setitems_merge_values.
  destruct (merge_values (items values) []); reflexivity.
Qed.

Lemma HDict_setitems_well_formed (pairs : Entries) (self d : HDict) :
  well_formed_pairs pairs ->
  well_formed (as_value self) = true ->
  HDict_setitems self pairs = Ok d ->
  well_formed (as_value d) = true.
Proof.
  intros Wp Ws. destruct self as [es f]. rewrite HDict_setitems_merge_values.
  destruct (merge_values pairs es) as [stored|e] eqn:M; [|discriminate].
  intros H. injection H as <-.
  change (well_formed_entries stored = true).
  eapply merge_values_well_formed; [| exact Wp | exact Ws | exact M].
  apply Forall_forall. intros p Hp. destruct (Wp p Hp).
  split; apply HDict_from_values_well_formed; assumption.
Qed.

(** An insertion keeps an instance well formed. *)
Lemma HDict_setitem_well_formed (self self' : HDict) (key value : PyVal) :
  well_formed (as_value self) = true ->
  well_formed key = true -> well_formed value = true ->
  HDict_setitem self key value = Ok self' ->
  well_formed (as_value self') = true.
Proof.
  intros Ws Wk Wv H.
  apply (HDict_setitems_well_formed [(key, value)] self self'); auto.
  - intros p [<-|[]]. auto.
  - simpl. now rewrite H.
Qed.

Lemma dict_store_well_formed_pairs (es : Entries) (k v : PyVal) :
  well_formed_pairs es -> well_formed k = true -> well_formed v = true ->
  well_formed_pairs (dict_store es k v).
Proof.
  intros Hes Wk Wv p Hin. apply dict_store_members in Hin.
  destruct Hin as [Hin|[Hv [Hk|[v0 Hin]]]]; [now apply Hes| |].
  - now rewrite Hv, Hk.
  - rewrite Hv. split; [|exact Wv]. apply (Hes _ Hin).
Qed.

Lemma dict_setitems_well_formed_pairs (pairs : Entries) :
  well_formed_pairs pairs ->
  forall es es',
    well_formed_pairs es -> dict_setitems es pairs = Ok es' ->
    well_formed_pairs es'.
Proof.
  induction pairs as [|[k v] rest IH]; intros Wp es es' Wes; simpl.
  - intros H. now injection H as <-.
  - unfold dict_setitem. destruct (py_hashable k); [|discriminate].
    destruct (Wp (k, v) (or_introl eq_refl)) as [Wk Wv].
    apply IH; [intros p Hp; apply Wp; simpl; auto|].
    now apply dict_store_well_formed_pairs.
Qed.

Lemma chars_well_formed (s : string) : forallb well_formed (chars s) = true.
Proof. induction s; simpl; auto. Qed.

Lemma unpack_pair_well_formed (arg : PyVal) :
  well_formed arg = true ->
  well_formed (fst (unpack_pair arg)) = true
  /\ well_formed (snd (unpack_pair arg)) = true.
Proof.
  intros W. unfold unpack_pair.
  assert (Hall : forall l, seq_items arg = Some l ->
                           forallb well_formed l = true).
  { destruct arg; simpl; try discriminate; intros l0 H; injection H as <-;
      [apply chars_well_formed | exact W | exact W]. }
  destruct (seq_items arg) as [[|a [|b [|c l]]]|]; simpl; auto.
  specialize (Hall _ eq_refl). simpl in Hall.
  rewrite !andb_true_iff in Hall. tauto.
Qed.

Lemma flat_pairs_well_formed (args : list PyVal) :
  forallb well_formed args = true -> well_formed_pairs (flat_pairs args).
Proof.
  assert (G : forall l,
             (forallb well_formed l = true -> well_formed_pairs (flat_pairs l))
             /\ (forall a, forallb well_formed (a :: l) = true ->
                            well_formed_pairs (flat_pairs (a :: l)))).
  { induction l as [|v rest [IH1 IH2]].
    - split; [intros _ p [] | intros a _ p []].
    - split; [apply IH2|]. intros k. cbn [forallb flat_pairs].
      rewrite !andb_true_iff. intros (Wk & Wv & Wr) p [<-|Hp]; [auto|].
      now apply IH1. }
  apply G.
Qed.

Lemma merge_positional_well_formed
    (args : list PyVal) (kwargs kwargs' : Entries) :
  forallb well_formed args = true -> well_formed_pairs kwargs ->
  merge_positional args kwargs = Ok kwargs' ->
  well_formed_pairs kwargs'.
Proof.
  intros Wa Wk. unfold merge_positional.
  destruct (_parameters_are_key_value_pairs args).
  { apply dict_setitems_well_formed_pairs; [|exact Wk].
    intros p Hp. apply in_map_iff in Hp. destruct Hp as (arg & <- & Harg).
    apply unpack_pair_well_formed.
    rewrite forallb_forall in Wa. now apply Wa. }
  destruct (_parameters_is_key_value_list args).
  { apply dict_setitems_well_formed_pairs; [|exact Wk].
    now apply flat_pairs_well_formed. }
  destruct (Nat.eqb (List.length args) 1 && is_Mapping (nth 0 args PNone))
    eqn:C.
  { apply dict_setitems_well_formed_pairs; [|exact Wk].
    apply andb_true_iff in C. destruct C as [_ Hm].
    apply well_formed_entries_pairs.
    rewrite <- well_formed_mapping by exact Hm.
    rewrite forallb_forall in Wa. apply Wa.
    destruct args as [|a r]; [discriminate Hm | simpl; auto]. }
  destruct (negb (Nat.eqb (List.length args) 0)); [discriminate|].
  intros H. now injection H as <-.
Qed.

(** Every instance that the constructor returns is well formed. *)
Lemma HDict_init_well_formed
    (args : list PyVal) (values factory : PyVal) (kwargs : Entries)
    (d : HDict) :
  forallb well_formed args = true -> well_formed_pairs kwargs ->
  well_formed values = true ->
  HDict_init args values factory kwargs = Ok d ->
  well_formed (as_value d) = true.
Proof.
  intros Wa Wk Wv. unfold HDict_init.
  destruct (merge_positional args kwargs) as [kwargs'|e] eqn:H1;
    [|discriminate].
  destruct (HDict_setitems (mkHDict [] factory) kwargs') as [self1|e] eqn:H2;
    [|discriminate].
  assert (W1 : well_formed (as_value self1) = true).
  { apply (HDict_setitems_well_formed kwargs' (mkHDict [] factory) self1);
      [|reflexivity|exact H2].
    eapply merge_positional_well_formed; eauto. }
  destruct (is_Mapping values) eqn:Hm.
  - apply HDict_setitems_well_formed; [|exact W1].
    apply well_formed_entries_pairs. now rewrite <- well_formed_mapping.
  - intros H. now injection H as <-.
Qed.

(** ** Equality of mappings, as the interpreter computes it *)

Lemma dict_lookup_found (es : Entries) (q : PyVal * PyVal) (k : PyVal) :
  distinct (keys es) = true -> In q es -> py_eq (fst q) k = true ->
  dict_lookup es k = Some (snd q).
Proof.
  induction es as [|[k0 v0] rest IH]; intros Hd Hin Hq; [destruct Hin|].
  change (keys ((k0, v0) :: rest)) with (k0 :: keys rest) in Hd.
  apply distinct_cons in Hd. destruct Hd as [Hk0 Hd]. simpl.
  destruct Hin as [<-|Hin].
  - simpl in Hq. now rewrite Hq.
  - destruct (py_eq k0 k) eqn:E; [|now apply IH].
    exfalso. rewrite py_eq_sym in E.
    assert (F : py_eq (fst q) k0 = false)
      by (apply Hk0; unfold keys; now apply in_map).
    rewrite (py_eq_trans _ _ _ Hq E) in F. discriminate.
Qed.

Lemma dict_lookup_Some (es : Entries) (k v : PyVal) :
  dict_lookup es k = Some v ->
  exists k0, In (k0, v) es /\ py_eq k0 k = true.
Proof.
  induction es as [|[k0 v0] rest IH]; simpl; [discriminate|].
  destruct (py_eq k0 k) eqn:E.
  - intros H. injection H as <-. eauto.
  - intros H. destruct (IH H) as (k1 & Hin & Heq). eauto.
Qed.

(** Of two lists of pairwise different items of the same length, if every
    item of the first has an equal in the second, every item of the second
    has an equal in the first. *)
Lemma matched_onto (l1 : list PyVal) :
  forall l2,
    distinct l1 = true -> distinct l2 = true ->
    List.length l1 = List.length l2 ->
    (forall x, In x l1 -> exists y, In y l2 /\ py_eq x y = true) ->
    forall y, In y l2 -> exists x, In x l1 /\ py_eq x y = true.
Proof.
  induction l1 as [|a r IH]; intros l2 D1 D2 Hlen I12 y Hy.
  - destruct l2; [destruct Hy | discriminate].
  - destruct (I12 a (or_introl eq_refl)) as (b & Hb & Hab).
    destruct (in_split _ _ Hb) as (l2a & l2b & ->).
    apply distinct_cons in D1. destruct D1 as [Da Dr].
    assert (Hy' : y = b \/ In y (l2a ++ l2b)).
    { apply in_app_iff in Hy. rewrite in_app_iff.
      destruct Hy as [Hy|[<-|Hy]]; auto. }
    destruct Hy' as [->|Hy']; [exists a; simpl; auto|].
    destruct (IH (l2a ++ l2b)) with (y := y) as (x & Hx & Hxy); auto.
    + eapply distinct_app_remove; eauto.
    + rewrite length_app in *. simpl in Hlen. lia.
    + intros x Hx. destruct (I12 x (or_intror Hx)) as (z & Hz & Hxz).
      exists z. split; [|exact Hxz].
      apply in_app_iff in Hz. apply in_app_iff.
      destruct Hz as [Hz|[<-|Hz]]; auto.
      exfalso. rewrite py_eq_sym in Hab. pose proof (Da x Hx) as F.
      rewrite (py_eq_trans _ _ _ Hxz Hab) in F. discriminate.
    + exists x. simpl. auto.
Qed.

(** On mappings whose keys are pairwise different, the comparison of
    [py_eq] and the comparison of the interpreter are the same. *)
Lemma entries_eqb_dict_equal (e1 e2 : Entries) :
  distinct (keys e1) = true -> distinct (keys e2) = true ->
  entries_eqb e1 e2 = dict_equal e1 e2.
Proof.
  intros D1 D2. apply eq_true_iff_eq. rewrite entries_eqb_spec.
  unfold dict_equal, entry_match.
  rewrite andb_true_iff, Nat.eqb_eq, forallb_forall. split.
  - intros [E1 E2]. split.
    + assert (HP : Permutation (map (fun _ => 0) (keys e1))
                               (map (fun _ => 0) (keys e2))).
      { apply matched_perm; auto.
        - intros x Hx. apply in_map_iff in Hx.
          destruct Hx as (p & <- & Hp). destruct (E1 p Hp) as (q & Hq & Hm).
          apply andb_true_iff in Hm. exists (fst q).
          split; [now apply in_map | tauto].
        - intros y Hy. apply in_map_iff in Hy.
          destruct Hy as (q & <- & Hq). destruct (E2 q Hq) as (p & Hp & Hm).
          apply andb_true_iff in Hm. exists (fst p).
          split; [now apply in_map | tauto]. }
      apply Permutation_length in HP. unfold keys in HP.
      now rewrite !length_map in HP.
    + intros p Hp. destruct (E1 p Hp) as (q & Hq & Hm).
      apply andb_true_iff in Hm. destruct Hm as [Hk Hv].
      rewrite py_eq_sym in Hk.
      now rewrite (dict_lookup_found e2 q (fst p) D2 Hq Hk).
  - intros [Hlen Hall].
    assert (E1 : forall p, In p e1 ->
               exists q, In q e2 /\ py_eq (fst p) (fst q) = true
                         /\ py_eq (snd p) (snd q) = true).
    { intros p Hp. specialize (Hall p Hp).
      destruct (dict_lookup e2 (fst p)) as [v|] eqn:L; [|discriminate].
      apply dict_lookup_Some in L. destruct L as (k0 & Hin & Hk).
      exists (k0, v). simpl. rewrite py_eq_sym. auto. }
    split.
    + intros p Hp. destruct (E1 p Hp) as (q & Hq & Hk & Hv).
      exists q. now rewrite Hk, Hv.
    + intros q Hq.
      destruct (matched_onto (keys e1) (keys e2) D1 D2) with (y := fst q)
        as (x & Hx & Hxq).
      * unfold keys. now rewrite !length_map.
      * intros x Hx. apply in_map_iff in Hx. destruct Hx as (p & <- & Hp).
        destruct (E1 p Hp) as (q' & Hq' & Hk & _).
        exists (fst q'). split; [now apply in_map | exact Hk].
      * unfold keys. now apply in_map.
      * apply in_map_iff in Hx. destruct Hx as (p & <- & Hp).
        exists p. split; [exact Hp|]. rewrite Hxq. simpl.
        specialize (Hall p Hp). rewrite py_eq_sym in Hxq.
        now rewrite (dict_lookup_found e2 q (fst p) D2 Hq Hxq) in Hall.
Qed.

Lemma py_eq_as_computed (a b : PyVal) :
  is_Mapping a = true -> is_Mapping b = true ->
  well_formed a = true -> well_formed b = true ->
  py_eq a b = dict_equal (items a) (items b).
Proof.
  intros Ma Mb Wa Wb. rewrite py_eq_mappings by assumption.
  rewrite well_formed_mapping in Wa, Wb by assumption.
  apply entries_eqb_dict_equal.
  - apply (well_formed_entries_parts _ Wa).
  - apply (well_formed_entries_parts _ Wb).
Qed.

(** * Further properties of the methods *)

(** ** [__setitem__] *)




Lemma HDict_setitem_Ok (self self' : HDict) (key value : PyVal) :
  HDict_setitem self key value = Ok self' ->
  exists key' value',
    coerce_mapping key = Ok key' /\ coerce_mapping value = Ok value'
    /\ py_hashable key' = true
    /\ self' = mkHDict (dict_store (hd_items self) key' value')
                       (hd_factory self).
Proof.
  unfold HDict_setitem.
  destruct (setitem_body HDict_from_values (hd_items self) key value)
    as [stored|e] eqn:Hs; [|discriminate].
  intros H. injection H as <-. apply setitem_body_Ok in Hs.
  destruct Hs as (k' & v' & Hk & Hv & _ & _ & Hh & ->).
  exists k', v'. auto.
Qed.

(** Assigning to a key that is present replaces its value and nothing
    else: the keys, their order and the number of entries stay. *)
Theorem setitem_present_key_overwrites
    (self self' : HDict) (key value : PyVal) :
  dict_contains (hd_items self) key = Ok true ->
  HDict_setitem self key value = Ok self' ->
  keys (hd_items self') = keys (hd_items self)
  /\ List.length (hd_items self') = List.length (hd_items self)
  /\ exists value', coerce_mapping value = Ok value'
                    /\ dict_lookup (hd_items self') key = Some value'.
Proof.
  intros Hc Hs. apply dict_contains_Ok in Hc. destruct Hc as [Hh Hp].
  rewrite HDict_setitem_hashable_key in Hs by exact Hh.
  destruct (coerce_mapping value) as [v'|e]; [|discriminate].
  destruct (is_Hashable v'); [|discriminate]. injection Hs as <-. simpl.
  destruct (dict_lookup (hd_items self) key) as [w|] eqn:L; [|discriminate].
  destruct (dict_store_present _ key v' w L) as [-> ->].
  repeat split. exists v'. now rewrite dict_lookup_store_same.
Qed.

Lemma setitem_present_key_overwrites_witness :
  let self := mkHDict [(PStr "a", PInt 1); (PStr "b", PInt 2)] PNone in
  let self' := mkHDict [(PStr "a", PInt 9); (PStr "b", PInt 2)] PNone in
  keys (hd_items self') = keys (hd_items self)
  /\ List.length (hd_items self') = List.length (hd_items self)
  /\ exists value', coerce_mapping (PInt 9) = Ok value'
                    /\ dict_lookup (hd_items self') (PStr "a") = Some value'.
Proof.
  apply (setitem_present_key_overwrites
           (mkHDict [(PStr "a", PInt 1); (PStr "b", PInt 2)] PNone)
           _ (PStr "a") (PInt 9)); reflexivity.
Defined.

(** Assigning to a key that is absent appends one entry, the key with the
    coerced value, after the entries that were there. *)
Theorem setitem_absent_key_appends
    (self self' : HDict) (key value : PyVal) :
  dict_contains (hd_items self) key = Ok false ->
  HDict_setitem self key value = Ok self' ->
  exists value', coerce_mapping value = Ok value'
                 /\ hd_items self' = hd_items self ++ [(key, value')].
Proof.
  intros Hc Hs. apply dict_contains_Ok in Hc. destruct Hc as [Hh Hp].
  rewrite HDict_setitem_hashable_key in Hs by exact Hh.
  destruct (coerce_mapping value) as [v'|e]; [|discriminate].
  destruct (is_Hashable v'); [|discriminate]. injection Hs as <-. simpl.
  destruct (dict_lookup (hd_items self) key) as [w|] eqn:L; [discriminate|].
  exists v'. split; [reflexivity|]. now apply dict_store_absent.
Qed.

Lemma setitem_absent_key_appends_witness :
  exists value',
    coerce_mapping (PDict [(PStr "n", PInt 3)]) = Ok value'
    /\ hd_items (mkHDict [(PStr "a", PInt 1);
                          (PStr "b", PHDict [(PStr "n", PInt 3)] PNone)] PNone)
       = [(PStr "a", PInt 1)] ++ [(PStr "b", value')].
Proof.
  apply (setitem_absent_key_appends
           (mkHDict [(PStr "a", PInt 1)] PNone) _
           (PStr "b") (PDict [(PStr "n", PInt 3)])); reflexivity.
Defined.

(** An insertion leaves the slot of every other key as it was. *)
Theorem setitem_keeps_other_keys
    (self self' : HDict) (key value other : PyVal) :
  well_formed key = true ->
  HDict_setitem self key value = Ok self' ->
  py_eq key other = false ->
  dict_lookup (hd_items self') other = dict_lookup (hd_items self) other.
Proof.
  intros Wk Hs Hne. apply HDict_setitem_Ok in Hs.
  destruct Hs as (k' & v' & Hk & _ & _ & ->). simpl.
  apply dict_lookup_store_other.
  destruct (py_eq k' other) eqn:E; [|reflexivity].
  assert (Hkk : py_eq key k' = true).
  { unfold coerce_mapping in Hk.
    destruct (is_Mapping key && negb (is_Hashable key)) eqn:C.
    - apply andb_true_iff in C. destruct C as [C _].
      rewrite py_eq_sym. eapply HDict_from_values_equal; eauto.
    - injection Hk as <-. apply py_eq_refl. }
  rewrite (py_eq_trans _ _ _ Hkk E) in Hne. discriminate.
Qed.

Lemma setitem_keeps_other_keys_witness :
  dict_lookup [(PStr "a", PInt 1); (PHDict [(PStr "x", PInt 1)] PNone, PInt 5)]
              (PStr "a")
  = dict_lookup [(PStr "a", PInt 1)] (PStr "a").
Proof.
  apply (setitem_keeps_other_keys
           (mkHDict [(PStr "a", PInt 1)] PNone)
           (mkHDict [(PStr "a", PInt 1);
                     (PHDict [(PStr "x", PInt 1)] PNone, PInt 5)] PNone)
           (PDict [(PStr "x", PInt 1)]) (PInt 5) (PStr "a")); reflexivity.
Defined.

Lemma dict_store_twice (es : Entries) (k v : PyVal) :
  dict_store (dict_store es k v) k v = dict_store es k v.
Proof.
  induction es as [|[k0 v0] rest IH]; simpl.
  - now rewrite py_eq_refl.
  - destruct (py_eq k0 k) eqn:E; simpl; rewrite E; [reflexivity|].
    now rewrite IH.
Qed.

(** Repeating an insertion changes nothing. *)
Theorem setitem_twice (self self' : HDict) (key value : PyVal) :
  HDict_setitem self key value = Ok self' ->
  HDict_setitem self' key value = Ok self'.
Proof.
  unfold HDict_setitem, setitem_body, dict_setitem.
  destruct (if is_Mapping key && negb (is_Hashable key)
            then HDict_from_values key else Ok key) as [k'|e]; [|discriminate].
  destruct (if is_Mapping value && negb (is_Hashable value)
            then HDict_from_values value
            else if negb (is_Hashable value)
                 then Raise ValueError_value_not_hashable
                 else if negb (is_Hashable k')
                      then Raise ValueError_key_not_hashable
                      else Ok value) as [v'|e]; [|discriminate].
  destruct (py_hashable k'); [|discriminate].
  intros H. injection H as <-. simpl. now rewrite dict_store_twice.
Qed.

Lemma setitem_twice_witness :
  let self' := mkHDict [(PStr "a", PHDict [(PStr "n", PInt 3)] PNone)] PNone in
  HDict_setitem self' (PStr "a") (PDict [(PStr "n", PInt 3)]) = Ok self'.
Proof.
  apply (setitem_twice (mkHDict [] PNone)). reflexivity.
Defined.

(** ** [__getitem__] *)

(** What was stored under a hashable key is what a lookup of the key
    returns; the lookup changes nothing and does not call the factory. *)
Theorem getitem_after_setitem
    (self self' : HDict) (key value : PyVal) :
  py_hashable key = true ->
  HDict_setitem self key value = Ok self' ->
  exists value',
    coerce_mapping value = Ok value'
    /\ forall calls, HDict_getitem self' calls key = (Ok value', self', calls).
Proof.
  intros Hh Hs. rewrite HDict_setitem_hashable_key in Hs by exact Hh.
  destruct (coerce_mapping value) as [v'|e]; [|discriminate].
  destruct (is_Hashable v'); [|discriminate]. injection Hs as <-.
  exists v'. split; [reflexivity|]. intros calls.
  unfold HDict_getitem, dict_contains, dict_getitem. simpl.
  now rewrite Hh, dict_lookup_store_same.
Qed.

Lemma getitem_after_setitem_witness :
  exists value',
    coerce_mapping (PInt 7) = Ok value'
    /\ forall calls,
        HDict_getitem (mkHDict [(PStr "k", PInt 7)] (constant_factory PNone))
                      calls (PStr "k")
        = (Ok value', mkHDict [(PStr "k", PInt 7)] (constant_factory PNone),
           calls).
Proof.
  apply (getitem_after_setitem
           (mkHDict [] (constant_factory PNone)) _ (PStr "k") (PInt 7));
    reflexivity.
Defined.

(** A value stored under a plain mapping cannot be fetched with that
    mapping, which is not hashable: the lookup raises TypeError, without a
    call of the factory.  It is fetched with the instance that the
    insertion built from the mapping. *)
Theorem getitem_plain_mapping_key
    (self self' : HDict) (key value : PyVal) :
  is_Mapping key = true -> is_Hashable key = false ->
  HDict_setitem self key value = Ok self' ->
  (forall calls,
      HDict_getitem self' calls key = (Raise TypeError_unhashable, self', calls))
  /\ exists key' value',
      HDict_from_values key = Ok key' /\ coerce_mapping value = Ok value'
      /\ forall calls,
          HDict_getitem self' calls key' = (Ok value', self', calls).
Proof.
  intros Hm Hh Hs. split.
  - intros calls. unfold HDict_getitem, dict_contains.
    destruct key; try discriminate. reflexivity.
  - apply HDict_setitem_Ok in Hs.
    destruct Hs as (k' & v' & Hk & Hv & Hk' & ->).
    exists k', v'. unfold coerce_mapping in Hk. rewrite Hm, Hh in Hk.
    split; [exact Hk|]. split; [exact Hv|]. intros calls.
    unfold HDict_getitem, dict_contains, dict_getitem. simpl.
    now rewrite Hk', dict_lookup_store_same.
Qed.

Lemma getitem_plain_mapping_key_witness :
  let self' := mkHDict [(PHDict [(PStr "x", PInt 1)] PNone, PInt 5)] PNone in
  (forall calls,
      HDict_getitem self' calls (PDict [(PStr "x", PInt 1)])
      = (Raise TypeError_unhashable, self', calls))
  /\ exists key' value',
      HDict_from_values (PDict [(PStr "x", PInt 1)]) = Ok key'
      /\ coerce_mapping (PInt 5) = Ok value'
      /\ forall calls,
          HDict_getitem self' calls key' = (Ok value', self', calls).
Proof.
  apply (getitem_plain_mapping_key
           (mkHDict [] PNone) _ (PDict [(PStr "x", PInt 1)]) (PInt 5));
    reflexivity.
Defined.

(** A lookup calls the factory at most once, and only for an absent key
    with a callable factory; without a call of the factory the instance is
    not changed. *)
Theorem getitem_factory_calls (self : HDict) (calls : nat) (key : PyVal) :
  let '(outcome, self', calls') := HDict_getitem self calls key in
  (calls' = S calls <->
   dict_contains (hd_items self) key = Ok false
   /\ is_Callable (hd_factory self) = true)
  /\ (calls' <> S calls -> calls' = calls /\ self' = self).
Proof.
  unfold HDict_getitem.
  destruct (dict_contains (hd_items self) key) as [[|]|e]; simpl.
  - split; [split; [lia | intros [H _]; discriminate] | auto].
  - destruct (is_Callable (hd_factory self)).
    + destruct (HDict_setitem self key _);
        (split; [split; auto | intros H; now elim H]).
    + split; [split; [lia | intros [_ H]; discriminate] | auto].
  - split; [split; [lia | intros [H _]; discriminate] | auto].
Qed.

Lemma getitem_factory_calls_witness :
  HDict_getitem (mkHDict [(PStr "a", PInt 1)] (constant_factory (PInt 0)))
                3 (PStr "a")
  = (Ok (PInt 1), mkHDict [(PStr "a", PInt 1)] (constant_factory (PInt 0)),
     3%nat)
  /\ (3 = 3 /\ mkHDict [(PStr "a", PInt 1)] (constant_factory (PInt 0))
               = mkHDict [(PStr "a", PInt 1)] (constant_factory (PInt 0)))%nat.
Proof.
  split; [reflexivity|].
  pose proof (getitem_factory_calls
                (mkHDict [(PStr "a", PInt 1)] (constant_factory (PInt 0)))
                3 (PStr "a")) as H.
  simpl in H. destruct H as [_ H]. apply H. discriminate.
Defined.

(** ** [empty] *)

(** [empty] is true exactly when no key is in the instance. *)
Theorem empty_iff_no_key (self : HDict) :
  well_formed (as_value self) = true ->
  (HDict_empty self = true <->
   forall k, py_hashable k = true ->
             dict_contains (hd_items self) k = Ok false).
Proof.
  intros Hwf. unfold HDict_empty. destruct self as [[|[k0 v0] rest] f]; simpl.
  - split; [|reflexivity]. intros _ k Hk. unfold dict_contains.
    now rewrite Hk.
  - split; [discriminate|]. intros H. exfalso.
    change (well_formed_entries ((k0, v0) :: rest) = true) in Hwf.
    destruct (well_formed_entries_parts _ Hwf) as (_ & _ & Hp).
    destruct (Hp (k0, v0) (or_introl eq_refl)) as (_ & _ & Hk0).
    specialize (H k0 Hk0). unfold dict_contains in H. simpl in H, Hk0.
    rewrite Hk0, py_eq_refl in H. discriminate.
Qed.

Lemma empty_iff_no_key_witness :
  HDict_empty (mkHDict [] PNone) = true <->
  forall k, py_hashable k = true -> dict_contains [] k = Ok false.
Proof.
  apply (empty_iff_no_key (mkHDict [] PNone)). reflexivity.
Defined.

(** After a successful insertion the instance is not empty. *)
Theorem not_empty_after_setitem (self self' : HDict) (key value : PyVal) :
  HDict_setitem self key value = Ok self' -> HDict_empty self' = false.
Proof.
  intros Hs. apply HDict_setitem_Ok in Hs.
  destruct Hs as (k' & v' & _ & _ & _ & ->). unfold HDict_empty. simpl.
  destruct (hd_items self) as [|[k0 v0] rest]; simpl; [reflexivity|].
  destruct (py_eq k0 k'); reflexivity.
Qed.

Lemma not_empty_after_setitem_witness :
  HDict_empty (mkHDict [(PStr "a", PInt 1)] PNone) = false.
Proof.
  apply (not_empty_after_setitem (mkHDict [] PNone) _ (PStr "a") (PInt 1)).
  reflexivity.
Defined.

(** ** [__hash__] *)

Section HashContract.
Variable hash_none : Z.
Variable hash_int : Z -> Z.
Variable hash_str : string -> Z.
Variable hash_func : nat -> Z.
Variable hash_tuple : list Z -> Z.
Variable shuffle_bits : Z -> Z.
Variable finish : nat -> Z -> Z.

Local Abbreviation hash_of :=
  (HDict_hash hash_none hash_int hash_str hash_func hash_tuple
              shuffle_bits finish).

(** Hash and equality agree: two instances that compare equal have the
    same hash, and hashing them does not raise. *)
Theorem equal_instances_hash_equal (d1 d2 : HDict) :
  well_formed (as_value d1) = true ->
  well_formed (as_value d2) = true ->
  same_contents d1 d2 ->
  exists h, hash_of d1 = Ok h /\ hash_of d2 = Ok h.
Proof.
  intros W1 W2 Heq.
  assert (H : forall d, well_formed (as_value d) = true ->
                        py_hashable (as_value d) = true).
  { intros d W. change (well_formed_entries (hd_items d) = true) in W.
    apply (well_formed_entries_parts _ W). }
  rewrite !HDict_hash_as_value by assumption. unfold py_hash.
  rewrite (H d1 W1), (H d2 W2).
  eexists. split; [reflexivity|]. f_equal. symmetry.
  apply hash_value_eq; auto.
Qed.

(** Assigning a new value to a key that is present does not change the
    hash. *)
Theorem hash_unchanged_by_overwrite
    (self self' : HDict) (key value : PyVal) :
  dict_contains (hd_items self) key = Ok true ->
  HDict_setitem self key value = Ok self' ->
  hash_of self' = hash_of self.
Proof.
  intros Hc Hs. apply dict_contains_Ok in Hc. destruct Hc as [Hh Hp].
  rewrite HDict_setitem_hashable_key in Hs by exact Hh.
  destruct (coerce_mapping value) as [v'|e]; [|discriminate].
  destruct (is_Hashable v'); [|discriminate]. injection Hs as <-.
  destruct (dict_lookup (hd_items self) key) as [w|] eqn:L; [|discriminate].
  unfold HDict_hash. simpl.
  now rewrite (proj1 (dict_store_present _ key v' w L)).
Qed.
End HashContract.

Lemma equal_instances_hash_equal_witness :
  let d1 := mkHDict [(PStr "a", PInt 1); (PNone, PStr "n")] PNone in
  let d2 := mkHDict [(PNone, PStr "n"); (PStr "a", PInt 1)]
                    (constant_factory (PInt 0)) in
  let hash := HDict_hash 0 (fun z => z) (fun s => Z.of_nat (String.length s))
                         Z.of_nat (fun l => fold_right Z.add 0 l)
                         (fun h => h * 3 + 1) (fun n x => x + Z.of_nat n) in
  exists h, hash d1 = Ok h /\ hash d2 = Ok h.
Proof.
  intros d1 d2 hash.
  apply (equal_instances_hash_equal
           0 (fun z => z) (fun s => Z.of_nat (String.length s))
           Z.of_nat (fun l => fold_right Z.add 0 l)
           (fun h => h * 3 + 1) (fun n x => x + Z.of_nat n) d1 d2);
    reflexivity.
Defined.

Lemma hash_unchanged_by_overwrite_witness :
  let hash := HDict_hash 0 (fun z => z) (fun s => Z.of_nat (String.length s))
                         Z.of_nat (fun l => fold_right Z.add 0 l)
                         (fun h => h * 3 + 1) (fun n x => x + Z.of_nat n) in
  hash (mkHDict [(PStr "a", PInt 2)] PNone)
  = hash (mkHDict [(PStr "a", PInt 1)] PNone).
Proof.
  intros hash.
  apply (hash_unchanged_by_overwrite
           0 (fun z => z) (fun s => Z.of_nat (String.length s))
           Z.of_nat (fun l => fold_right Z.add 0 l)
           (fun h => h * 3 + 1) (fun n x => x + Z.of_nat n)
           (mkHDict [(PStr "a", PInt 1)] PNone) _ (PStr "a") (PInt 2));
    reflexivity.
Defined.

(** ** Invariants *)

(** The constructor keeps its factory and establishes the invariants of
    the class: the keys are hashable and pairwise different, and every key
    and value stored is an instance of Hashable. *)
Theorem init_establishes_invariants
    (args : list PyVal) (values factory : PyVal) (kwargs : Entries)
    (d : HDict) :
  forallb well_formed args = true -> well_formed_pairs kwargs ->
  well_formed values = true ->
  HDict_init args values factory kwargs = Ok d ->
  well_formed (as_value d) = true
  /\ all_Hashable (hd_items d)
  /\ hd_factory d = factory.
Proof.
  intros Wa Wk Wv Hi.
  split; [eapply HDict_init_well_formed; eauto|].
  revert Hi. unfold HDict_init.
  destruct (merge_positional args kwargs) as [kwargs'|e]; [|discriminate].
  destruct (HDict_setitems (mkHDict [] factory) kwargs') as [self1|e] eqn:H2;
    [|discriminate].
  assert (A1 : all_Hashable (hd_items self1)).
  { apply (HDict_setitems_all_Hashable _ _ _) in H2; [exact H2|].
    intros k v []. }
  assert (F1 : hd_factory self1 = factory).
  { rewrite HDict_setitems_merge_values in H2.
    destruct (merge_values kwargs' []); [|discriminate].
    now injection H2 as <-. }
  destruct (is_Mapping values).
  - intros H3. split.
    + eapply HDict_setitems_all_Hashable; eauto.
    + destruct self1 as [es1 f1]. simpl in F1. subst f1.
      rewrite HDict_setitems_merge_values in H3.
      destruct (merge_values (items values) es1); [|discriminate].
      now injection H3 as <-.
  - intros H. injection H as <-. auto.
Qed.

Lemma init_establishes_invariants_witness :
  let d := mkHDict [(PStr "a", PInt 1);
                    (PStr "k", PHDict [(PInt 1, PNone)] PNone)]
                   (constant_factory PNone) in
  well_formed (as_value d) = true
  /\ all_Hashable (hd_items d)
  /\ hd_factory d = constant_factory PNone.
Proof.
  apply (init_establishes_invariants
           [PTuple [PStr "k"; PInt 0]]
           (PDict [(PStr "k", PDict [(PInt 1, PNone)])])
           (constant_factory PNone) [(PStr "a", PInt 1)]).
  - reflexivity.
  - intros p [<-|[]]. split; reflexivity.
  - reflexivity.
  - reflexivity.
Defined.

(** An insertion keeps the invariants. *)
Theorem setitem_keeps_invariants
    (self self' : HDict) (key value : PyVal) :
  well_formed (as_value self) = true -> all_Hashable (hd_items self) ->
  well_formed key = true -> well_formed value = true ->
  HDict_setitem self key value = Ok self' ->
  well_formed (as_value self') = true /\ all_Hashable (hd_items self').
Proof.
  intros Ws As Wk Wv Hs. split.
  - exact (HDict_setitem_well_formed self self' key value Ws Wk Wv Hs).
  - apply (HDict_setitems_all_Hashable [(key, value)] self self' As).
    simpl. now rewrite Hs.
Qed.

Lemma setitem_keeps_invariants_witness :
  let self' := mkHDict [(PStr "a", PInt 1);
                        (PHDict [(PStr "x", PInt 1)] PNone,
                         PTuple [PList []])] PNone in
  well_formed (as_value self') = true /\ all_Hashable (hd_items self').
Proof.
  apply (setitem_keeps_invariants
           (mkHDict [(PStr "a", PInt 1)] PNone) _
           (PDict [(PStr "x", PInt 1)]) (PTuple [PList []])).
  - reflexivity.
  - intros k v [H|[]]. injection H as <- <-. split; reflexivity.
  - reflexivity.
  - reflexivity.
  - reflexivity.
Defined.

(** A lookup keeps the invariants, also when it stores what the factory
    returns. *)
Theorem getitem_keeps_invariants (self : HDict) (calls : nat) (key : PyVal) :
  well_formed (as_value self) = true -> all_Hashable (hd_items self) ->
  well_formed key = true ->
  well_formed (call_factory (hd_factory self) calls) = true ->
  let '(_, self', _) := HDict_getitem self calls key in
  well_formed (as_value self') = true /\ all_Hashable (hd_items self').
Proof.
  intros Ws As Wk Wf. unfold HDict_getitem.
  destruct (dict_contains (hd_items self) key) as [present|e]; [|auto].
  destruct (negb present && is_Callable (hd_factory self)); [|auto].
  destruct (HDict_setitem self key (call_factory (hd_factory self) calls))
    as [self'|e] eqn:Hs; [|auto].
  split.
  - exact (HDict_setitem_well_formed self self' key _ Ws Wk Wf Hs).
  - apply (HDict_setitems_all_Hashable
             [(key, call_factory (hd_factory self) calls)] self self' As).
    simpl. now rewrite Hs.
Qed.

Lemma getitem_keeps_invariants_witness :
  let self' := mkHDict [(PStr "k", PHDict [] PNone)]
                       (constant_factory (PDict [])) in
  well_formed (as_value self') = true /\ all_Hashable (hd_items self').
Proof.
  pose proof (getitem_keeps_invariants
                (mkHDict [] (constant_factory (PDict []))) 0 (PStr "k")) as H.
  apply H; try reflexivity. intros k v [].
Defined.

(** ** Sources of the entries of a new instance *)

Lemma dict_setitems_appends (pairs : Entries) :
  forallb (fun e => py_hashable (fst e)) pairs = true ->
  forall es,
    distinct (keys es ++ keys pairs) = true ->
    dict_setitems es pairs = Ok (es ++ pairs).
Proof.
  induction pairs as [|[k v] rest IH]; intros Hh es Hd; simpl.
  - now rewrite app_nil_r.
  - simpl in Hh. apply andb_true_iff in Hh. destruct Hh as [Hk Hrest].
    unfold dict_setitem. rewrite Hk.
    assert (Habs : dict_lookup es k = None).
    { apply dict_lookup_None. apply py_in_false. intros y Hy.
      simpl in Hd. destruct (in_split _ _ Hy) as (l1 & l2 & E).
      rewrite E in Hd. rewrite <- app_assoc in Hd. cbn [app] in Hd.
      apply (distinct_middle l1 (l2 ++ k :: keys rest) y k Hd).
      apply in_app_iff. right. apply in_app_iff. simpl. auto. }
    rewrite (dict_store_absent _ _ _ Habs), IH.
    + now rewrite <- app_assoc.
    + exact Hrest.
    + unfold keys in *. rewrite map_app, <- app_assoc. exact Hd.
Qed.

Lemma HDict_setitems_equal (es : Entries) (factory : PyVal) (d : HDict) :
  well_formed_entries es = true ->
  HDict_setitems (mkHDict [] factory) es = Ok d ->
  entries_eqb (hd_items d) es = true /\ hd_factory d = factory.
Proof.
  intros Hwf. rewrite HDict_setitems_merge_values.
  destruct (merge_values es []) as [stored|e] eqn:M; [|discriminate].
  intros H. injection H as <-. simpl. split; [|reflexivity].
  apply merge_values_equal; auto.
  apply Forall_forall. intros p _ Wp Mp h Hh.
  eapply HDict_from_values_equal; eauto.
Qed.

(** An instance built from a mapping alone, passed as the positional
    argument or as [values], is equal to the mapping; the two ways build
    the same instance. *)
Theorem init_from_mapping (m factory : PyVal) :
  is_Mapping m = true -> well_formed m = true ->
  HDict_init [m] PNone factory [] = HDict_init [] m factory []
  /\ forall d, HDict_init [] m factory [] = Ok d ->
               py_eq (as_value d) m = true /\ hd_factory d = factory.
Proof.
  intros Hm Hwf.
  pose proof Hwf as Hwe. rewrite well_formed_mapping in Hwe by exact Hm.
  destruct (well_formed_entries_parts _ Hwe) as (Hh & Hd & _).
  assert (E : HDict_init [] m factory []
              = HDict_setitems (mkHDict [] factory) (items m)).
  { unfold HDict_init. simpl. now rewrite Hm. }
  split.
  - rewrite E. unfold HDict_init, merge_positional.
    assert (Hp : _parameters_are_key_value_pairs [m] = false)
      by (destruct m; try discriminate; reflexivity).
    assert (Hf : _parameters_is_key_value_list [m] = false) by reflexivity.
    rewrite Hp, Hf.
    change (Nat.eqb (List.length [m]) 1 && is_Mapping (nth 0 [m] PNone))
      with (is_Mapping m).
    rewrite Hm. change (nth 0 [m] PNone) with m.
    rewrite (dict_setitems_appends (items m) Hh []) by exact Hd.
    cbn [app is_Mapping].
    destruct (HDict_setitems (mkHDict [] factory) (items m)); reflexivity.
  - intros d Hi. rewrite E in Hi.
    destruct (HDict_setitems_equal _ _ _ Hwe Hi) as [Heq Hf].
    split; [|exact Hf].
    rewrite py_eq_mappings by (exact Hm || reflexivity). exact Heq.
Qed.

Lemma init_from_mapping_witness :
  let m := PDict [(PStr "a", PDict [(PStr "n", PInt 3)]); (PInt 2, PNone)] in
  HDict_init [m] PNone PNone [] = HDict_init [] m PNone []
  /\ forall d, HDict_init [] m PNone [] = Ok d ->
               py_eq (as_value d) m = true /\ hd_factory d = PNone.
Proof.
  apply (init_from_mapping
           (PDict [(PStr "a", PDict [(PStr "n", PInt 3)]); (PInt 2, PNone)])
           PNone); reflexivity.
Defined.

Lemma dict_setitems_keeps (pairs : Entries) :
  forall es es' k,
    dict_setitems es pairs = Ok es' ->
    py_in k (keys pairs) = false ->
    dict_lookup es' k = dict_lookup es k.
Proof.
  induction pairs as [|[k0 v0] rest IH]; intros es es' k; simpl.
  - intros H _. now injection H as <-.
  - unfold dict_setitem. destruct (py_hashable k0); [|discriminate].
    intros Hm Hin. apply orb_false_iff in Hin. destruct Hin as [Hne Hin].
    rewrite (IH _ _ _ Hm Hin). now apply dict_lookup_store_other.
Qed.

Lemma dict_setitems_last_wins (pairs : Entries) :
  distinct (keys pairs) = true ->
  forall es es',
    dict_setitems es pairs = Ok es' ->
    forall k v, In (k, v) pairs -> dict_lookup es' k = Some v.
Proof.
  induction pairs as [|[k0 v0] rest IH]; intros Hd es es' Hm k v Hin;
    [destruct Hin|].
  simpl in Hd. apply andb_true_iff in Hd. destruct Hd as [Hnew Hd].
  apply negb_true_iff in Hnew. simpl in Hm. unfold dict_setitem in Hm.
  destruct (py_hashable k0); [|discriminate].
  destruct Hin as [Heq|Hin].
  - injection Heq as <- <-.
    rewrite (dict_setitems_keeps rest _ _ _ Hm Hnew).
    apply dict_lookup_store_same.
  - eapply IH; eauto.
Qed.

Lemma dict_setitems_well_formed (pairs : Entries) :
  well_formed_pairs pairs ->
  forall es es',
    well_formed_entries es = true -> dict_setitems es pairs = Ok es' ->
    well_formed_entries es' = true.
Proof.
  induction pairs as [|[k v] rest IH]; intros Wp es es' Wes; simpl.
  - intros H. now injection H as <-.
  - unfold dict_setitem. destruct (py_hashable k) eqn:Hk; [|discriminate].
    destruct (Wp (k, v) (or_introl eq_refl)) as [Wk Wv].
    apply IH; [intros p Hp; apply Wp; simpl; auto|].
    now apply dict_store_well_formed.
Qed.

Lemma merge_positional_entries
    (args : list PyVal) (kwargs kwargs' : Entries) :
  merge_positional args kwargs = Ok kwargs' ->
  dict_setitems kwargs (positional_entries args) = Ok kwargs'.
Proof.
  unfold merge_positional, positional_entries, is_single_mapping.
  destruct (_parameters_are_key_value_pairs args); [auto|].
  destruct (_parameters_is_key_value_list args); [auto|].
  destruct (Nat.eqb (List.length args) 1 && is_Mapping (nth 0 args PNone));
    [auto|].
  destruct (negb (Nat.eqb (List.length args) 0)); [discriminate|auto].
Qed.

Lemma positional_entries_well_formed (args : list PyVal) :
  forallb well_formed args = true ->
  well_formed_pairs (positional_entries args).
Proof.
  intros Wa. unfold positional_entries.
  destruct (_parameters_are_key_value_pairs args).
  { intros p Hp. apply in_map_iff in Hp. destruct Hp as (arg & <- & Harg).
    apply unpack_pair_well_formed.
    rewrite forallb_forall in Wa. now apply Wa. }
  destruct (_parameters_is_key_value_list args).
  { now apply flat_pairs_well_formed. }
  destruct (is_single_mapping args) eqn:C; [|intros p []].
  unfold is_single_mapping in C.
  apply andb_true_iff in C. destruct C as [_ Hm].
  apply well_formed_entries_pairs.
  rewrite <- well_formed_mapping by exact Hm.
  rewrite forallb_forall in Wa. apply Wa.
  destruct args as [|a r]; [discriminate Hm | simpl; auto].
Qed.

(** Without [values], and with positional entries whose keys are pairwise
    different: every positional entry is in the new instance with its
    (coerced) value, also when a keyword has the same key; a keyword entry
    whose key is not among the positional ones is there with its (coerced)
    value. *)
Theorem positional_entries_override_keywords
    (args : list PyVal) (values factory : PyVal) (kwargs : Entries)
    (d : HDict) :
  forallb well_formed args = true ->
  well_formed_entries kwargs = true ->
  distinct (keys (positional_entries args)) = true ->
  is_Mapping values = false ->
  HDict_init args values factory kwargs = Ok d ->
  (forall k v, In (k, v) (positional_entries args) ->
     exists v', coerce_mapping v = Ok v'
                /\ dict_lookup (hd_items d) k = Some v')
  /\ (forall k v, In (k, v) kwargs ->
        py_in k (keys (positional_entries args)) = false ->
        exists v', coerce_mapping v = Ok v'
                   /\ dict_lookup (hd_items d) k = Some v').
Proof.
  intros Wa Wk Hd Hv. unfold HDict_init.
  destruct (merge_positional args kwargs) as [kwargs'|e] eqn:H1;
    [|discriminate].
  destruct (HDict_setitems (mkHDict [] factory) kwargs') as [self1|e] eqn:H2;
    [|discriminate].
  rewrite Hv. intros H. injection H as <-.
  apply merge_positional_entries in H1.
  assert (Wk' : well_formed_entries kwargs' = true).
  { eapply dict_setitems_well_formed; [|exact Wk|exact H1].
    now apply positional_entries_well_formed. }
  destruct (well_formed_entries_parts _ Wk') as (Hh' & Hd' & _).
  assert (G : forall k v, dict_lookup kwargs' k = Some v ->
                exists v', coerce_mapping v = Ok v'
                           /\ dict_lookup (hd_items self1) k = Some v').
  { intros k v L. apply dict_lookup_Some in L. destruct L as (k0 & Hin & Hk).
    destruct (HDict_setitems_last_wins kwargs' Hh' Hd' _ _ H2 k0 v Hin)
      as (v' & Hc & Hl).
    exists v'. split; [exact Hc|].
    now rewrite <- (dict_lookup_eq_key _ _ _ Hk). }
  split.
  - intros k v Hin. apply G.
    exact (dict_setitems_last_wins _ Hd _ _ H1 k v Hin).
  - intros k v Hin Hnot. apply G.
    rewrite (dict_setitems_keeps _ _ _ _ H1 Hnot).
    destruct (well_formed_entries_parts _ Wk) as (_ & Hdk & _).
    now apply (dict_lookup_found kwargs (k, v) k Hdk Hin), py_eq_refl.
Qed.

Lemma positional_entries_override_keywords_witness :
  let d := mkHDict [(PStr "a", PInt 1); (PStr "c", PInt 3); (PStr "b", PInt 2)]
                   PNone in
  (forall k v, In (k, v) [(PStr "a", PInt 1); (PStr "b", PInt 2)] ->
     exists v', coerce_mapping v = Ok v'
                /\ dict_lookup (hd_items d) k = Some v')
  /\ (forall k v, In (k, v) [(PStr "a", PInt 0); (PStr "c", PInt 3)] ->
        py_in k [PStr "a"; PStr "b"] = false ->
        exists v', coerce_mapping v = Ok v'
                   /\ dict_lookup (hd_items d) k = Some v').
Proof.
  apply (positional_entries_override_keywords
           [PStr "a"; PInt 1; PStr "b"; PInt 2] PNone PNone
           [(PStr "a", PInt 0); (PStr "c", PInt 3)]); reflexivity.
Defined.

(** ** [to_json] and [loads] *)

Lemma json_encode_mapping (v : PyVal) :
  is_Mapping v = true ->
  json_encode v = ms <- encode_entries (items v) ;; Ok (JObject ms).
Proof. destruct v; try discriminate; reflexivity. Qed.

Lemma json_decode_object (ms : list (string * Json)) :
  json_decode (JObject ms) = PDict (decode_members ms []).
Proof. reflexivity. Qed.

Lemma decode_members_appends (ms : list (string * Json)) :
  forall acc,
    distinct (keys acc ++ keys (decoded_entries ms)) = true ->
    decode_members ms acc = acc ++ decoded_entries ms.
Proof.
  induction ms as [|[name j] rest IH]; intros acc Hd; simpl.
  - now rewrite app_nil_r.
  - assert (Habs : dict_lookup acc (PStr name) = None).
    { apply dict_lookup_None. apply py_in_false. intros y Hy.
      simpl in Hd. destruct (in_split _ _ Hy) as (l1 & l2 & E).
      rewrite E in Hd. rewrite <- app_assoc in Hd. cbn [app] in Hd.
      apply (distinct_middle l1 _ y (PStr name) Hd).
      apply in_app_iff. right. apply in_app_iff. simpl. auto. }
    rewrite (dict_store_absent _ _ _ Habs), IH.
    + now rewrite <- app_assoc.
    + unfold keys in *. rewrite map_app, <- app_assoc. exact Hd.
Qed.

Lemma renders_keys (ms : list (string * Json)) (es : Entries) :
  Forall2 renders ms es -> keys (decoded_entries ms) = keys es.
Proof.
  induction 1 as [|m e ms es (Hk & _) _ IH]; simpl; [reflexivity|].
  now rewrite IH, Hk.
Qed.

Lemma encode_entries_json (es : Entries) :
  Forall (fun e =>
            json_value (snd e) = true -> well_formed (snd e) = true ->
            exists j, json_encode (snd e) = Ok j
                      /\ py_eq (json_decode j) (snd e) = true
                      /\ well_formed (json_decode j) = true
                      /\ json_value (json_decode j) = true) es ->
  forallb (fun e => is_str (fst e) && json_value (snd e)) es = true ->
  (forall p, In p es -> well_formed (snd p) = true) ->
  exists ms, encode_entries es = Ok ms /\ Forall2 renders ms es.
Proof.
  induction 1 as [|[k x] rest Hx _ IH]; intros Hj Hw; simpl.
  - exists []. split; [reflexivity | constructor].
  - simpl in Hj. rewrite !andb_true_iff in Hj. destruct Hj as [[Hk Hjx] Hjr].
    destruct k; try discriminate. simpl.
    destruct (Hx Hjx (Hw _ (or_introl eq_refl))) as (j & Ej & Pj & Wj & Jj).
    simpl in Ej. rewrite Ej.
    destruct (IH Hjr (fun p Hp => Hw p (or_intror Hp))) as (ms & Ems & HF).
    rewrite Ems. exists ((s, j) :: ms). split; [reflexivity|].
    constructor; [|exact HF]. repeat split; assumption.
Qed.

(** Encoding a JSON-like value and decoding the document gives an equal,
    well-formed value; a mapping comes back as a plain dict with the same
    keys. *)
Lemma json_decode_encode (v : PyVal) :
  json_value v = true -> well_formed v = true ->
  exists j, json_encode v = Ok j
            /\ py_eq (json_decode j) v = true
            /\ well_formed (json_decode j) = true
            /\ json_value (json_decode j) = true
            /\ (is_Mapping v = true ->
                exists des, json_decode j = PDict des
                            /\ keys des = keys (items v)).
Proof.
  assert (G : forall es,
             Forall (fun e =>
                       json_value (snd e) = true ->
                       well_formed (snd e) = true ->
                       exists j, json_encode (snd e) = Ok j
                                 /\ py_eq (json_decode j) (snd e) = true
                                 /\ well_formed (json_decode j) = true
                                 /\ json_value (json_decode j) = true) es ->
             forallb (fun e => is_str (fst e) && json_value (snd e)) es = true ->
             well_formed_entries es = true ->
             exists ms, encode_entries es = Ok ms
                        /\ decode_members ms [] = decoded_entries ms
                        /\ entries_eqb (decoded_entries ms) es = true
                        /\ well_formed_entries (decoded_entries ms) = true
                        /\ json_value (PDict (decoded_entries ms)) = true
                        /\ keys (decoded_entries ms) = keys es).
  { intros es IH Hj Hwf.
    destruct (well_formed_entries_parts _ Hwf) as (_ & Hd & Hp).
    destruct (encode_entries_json es IH Hj) as (ms & Ems & HF).
    { intros p Hpin. apply (Hp p Hpin). }
    pose proof (renders_keys ms es HF) as Hkeys.
    exists ms. split; [exact Ems|]. split.
    { rewrite decode_members_appends; [reflexivity|].
      cbn [keys map app]. now rewrite Hkeys. }
    split.
    { apply coerced_entries_eqb. clear - HF.
      induction HF as [|m e ms es (Hk & Pe & _) _ IH]; simpl; constructor;
        auto. }
    split.
    { apply well_formed_entries_iff. split; [now rewrite Hkeys|].
      clear - HF. induction HF as [|m e ms es (Hk & _ & We & _) _ IH].
      - intros p [].
      - intros p [<-|Hin]; simpl; auto. }
    split; [|exact Hkeys].
    clear - HF. induction HF as [|m e ms es (_ & _ & _ & Je) _ IH];
      simpl; [reflexivity|]. simpl in IH. now rewrite Je, IH. }
  induction v as [ | z | s | l IH | l IH | es IH | es f IH | i r ]
    using PyVal_nested_ind; intros Hj Hwf; try discriminate.
  - exists JNull. repeat split; auto; discriminate.
  - exists (JNumber z). simpl. rewrite Z.eqb_refl.
    repeat split; auto; discriminate.
  - exists (JString s). simpl. rewrite String.eqb_refl.
    repeat split; auto; discriminate.
  - destruct (G es) as (ms & Ems & Ed & Eq & Wd & Jd & Kd); auto.
    { eapply Forall_impl; [|exact IH]. cbv beta. intros e [_ H] Hje Hwe.
      destruct (H Hje Hwe) as (j & A & B & C & D & _). eauto. }
    exists (JObject ms). rewrite json_encode_mapping by reflexivity.
    cbn [items]. rewrite Ems, json_decode_object, Ed.
    repeat split; auto. intros _. exists (decoded_entries ms). auto.
  - destruct (G es) as (ms & Ems & Ed & Eq & Wd & Jd & Kd); auto.
    { eapply Forall_impl; [|exact IH]. cbv beta. intros e [_ H] Hje Hwe.
      destruct (H Hje Hwe) as (j & A & B & C & D & _). eauto. }
    exists (JObject ms). rewrite json_encode_mapping by reflexivity.
    cbn [items]. rewrite Ems, json_decode_object, Ed.
    repeat split; auto. intros _. exists (decoded_entries ms). auto.
Qed.

Lemma merge_values_json (es : Entries) :
  Forall (fun e => json_value (snd e) = true ->
                   exists h, HDict_from_values (snd e) = Ok h) es ->
  forallb (fun e => is_str (fst e) && json_value (snd e)) es = true ->
  forall self, exists stored, merge_values es self = Ok stored.
Proof.
  induction 1 as [|[k x] rest Hx _ IH]; intros Hj self; simpl.
  - eauto.
  - simpl in Hj. rewrite !andb_true_iff in Hj. destruct Hj as [[Hk Hjx] Hjr].
    destruct k; try discriminate.
    rewrite setitem_body_hashable_key by reflexivity.
    unfold coerce_mapping.
    destruct (is_Mapping x && negb (is_Hashable x)) eqn:C.
    + destruct (Hx Hjx) as (h & Eh). simpl in Eh. rewrite Eh.
      destruct (HDict_from_values_is_HDict _ _ Eh) as (hs & ->). simpl.
      apply IH. exact Hjr.
    + assert (Hh : is_Hashable x = true)
        by (destruct x; simpl in *; try discriminate; reflexivity).
      rewrite Hh. apply IH. exact Hjr.
Qed.

(** The constructor accepts every JSON-like mapping. *)
Lemma HDict_from_values_json (v : PyVal) :
  json_value v = true -> exists h, HDict_from_values v = Ok h.
Proof.
  induction v as [ | z | s | l IH | l IH | es IH | es f IH | i r ]
    using PyVal_nested_ind; intros Hj; rewrite HDict_from_values_unfold;
    cbn [is_Mapping items]; eauto;
    (destruct (merge_values_json es) with (self := @nil (PyVal * PyVal))
       as (stored & ->);
     [eapply Forall_impl; [|exact IH]; cbv beta; tauto | exact Hj | eauto]).
Qed.

Lemma bind_keywords_all (es : Entries) :
  forallb (fun k => is_str k && negb (is_parameter_name k)) (keys es) = true ->
  forall values factory kwargs,
    bind_keywords es values factory kwargs
    = Ok (values, factory, kwargs ++ es).
Proof.
  induction es as [|[k x] rest IH]; intros Hk values factory kwargs; simpl.
  - now rewrite app_nil_r.
  - simpl in Hk. rewrite !andb_true_iff in Hk. destruct Hk as [[Hs Hn] Hr].
    destruct k; try discriminate. simpl in Hn.
    apply negb_true_iff in Hn. rewrite !orb_false_iff in Hn.
    destruct Hn as [[-> ->] ->]. rewrite IH by exact Hr.
    now rewrite <- app_assoc.
Qed.

(** Round trip: an instance whose keys are strings, none of them "self",
    "values" or "factory" at the top, and whose values are None, integers,
    strings or mappings of the same kind, is rendered by [to_json], called
    with no option or with [indent] alone (an integer or None), and loaded
    back by [loads] as an equal instance without a factory. *)
Theorem loads_to_json_round_trip
    (m : HDict) (options : list (string * PyVal)) :
  only_indent options = true ->
  json_value (as_value m) = true ->
  well_formed (as_value m) = true ->
  forallb (fun k => negb (is_parameter_name k)) (keys (hd_items m)) = true ->
  exists text r,
    HDict_to_json m options = Ok text
    /\ HDict_loads text = Ok r
    /\ same_contents r m
    /\ hd_factory r = PNone.
Proof.
  intros _ Hj Hwf Hnp.
  destruct (json_decode_encode (as_value m) Hj Hwf)
    as (j & Ej & Pj & Wj & Jj & Hm).
  destruct (Hm eq_refl) as (des & Ed & Kd). cbn [as_value items] in Kd.
  rewrite Ed in Wj, Jj, Pj.
  change (well_formed_entries des = true) in Wj.
  destruct (merge_values_json des) with (self := @nil (PyVal * PyVal))
    as (stored & Hs).
  { apply Forall_forall. intros p _ Hp. now apply HDict_from_values_json. }
  { exact Jj. }
  pose proof (HDict_setitems_merge_values des [] PNone) as Hset.
  rewrite Hs in Hset.
  destruct (HDict_setitems_equal des PNone _ Wj Hset) as [Heq _].
  unfold HDict_to_json, json_dumps. rewrite Ej.
  eexists. exists (mkHDict stored PNone). split; [reflexivity|].
  split; [|split; [|reflexivity]].
  - unfold HDict_loads, json_loads, HDict_call_keywords. cbn [jt_document].
    rewrite Ed. cbn [is_Mapping items].
    rewrite bind_keywords_all.
    + cbn [app]. unfold HDict_init.
      change (merge_positional [] des) with (Ok des).
      cbn [is_Mapping]. now rewrite Hset.
    + rewrite Kd. rewrite forallb_forall in Hnp |- *. intros k Hk.
      rewrite (Hnp k Hk), andb_true_r.
      unfold keys in Hk. apply in_map_iff in Hk. destruct Hk as (p & <- & Hp).
      simpl in Hj. rewrite forallb_forall in Hj. specialize (Hj p Hp).
      apply andb_true_iff in Hj. tauto.
  - unfold same_contents. eapply py_eq_trans; [|exact Pj]. exact Heq.
Qed.

Lemma loads_to_json_round_trip_witness :
  let m := mkHDict [(PStr "name", PStr "x");
                    (PStr "inner", PHDict [(PStr "n", PInt 3)] PNone)]
                   (constant_factory (PInt 0)) in
  exists text r,
    HDict_to_json m [("indent", PInt 2)] = Ok text
    /\ HDict_loads text = Ok r
    /\ same_contents r m
    /\ hd_factory r = PNone.
Proof.
  apply (loads_to_json_round_trip
           (mkHDict [(PStr "name", PStr "x");
                     (PStr "inner", PHDict [(PStr "n", PInt 3)] PNone)]
                    (constant_factory (PInt 0))) [("indent", PInt 2)]);
    reflexivity.
Defined.

Lemma dict_store_keeps_keys (es : Entries) (k v k1 : PyVal) :
  In k1 (keys es) -> In k1 (keys (dict_store es k v)).
Proof.
  induction es as [|[k0 v0] rest IH]; simpl; [tauto|].
  destruct (py_eq k0 k); simpl; tauto.
Qed.

Lemma dict_store_has_name (es : Entries) (name : string) (v : PyVal) :
  In (PStr name) (keys (dict_store es (PStr name) v)).
Proof.
  destruct (dict_store_In es (PStr name) v) as (k0 & Hin & Heq & _).
  destruct k0; try discriminate. simpl in Heq.
  apply String.eqb_eq in Heq. subst.
  unfold keys. apply in_map_iff. exists (PStr name, v). auto.
Qed.

Lemma decode_members_keys (ms : list (string * Json)) :
  forall acc,
    (forall k, In k (keys acc) -> In k (keys (decode_members ms acc)))
    /\ (forall name, In name (map fst ms) ->
                     In (PStr name) (keys (decode_members ms acc))).
Proof.
  induction ms as [|[n j] rest IH]; intros acc; simpl.
  - split; [auto | intros name []].
  - destruct (IH (dict_store acc (PStr n) (json_decode j))) as [IH1 IH2].
    split.
    + intros k Hk. apply IH1. now apply dict_store_keeps_keys.
    + intros name [->|Hin]; [|now apply IH2].
      apply IH1. apply dict_store_has_name.
Qed.

Lemma bind_keywords_self (pairs : Entries) :
  In (PStr "self") (keys pairs) ->
  forall values factory kwargs,
    bind_keywords pairs values factory kwargs = Raise TypeError_call.
Proof.
  induction pairs as [|[k x] rest IH]; intros Hin values factory kwargs;
    [destruct Hin|].
  simpl. destruct k; try reflexivity.
  destruct (String.eqb s "self") eqn:E; [reflexivity|].
  assert (Hr : In (PStr "self") (keys rest)).
  { destruct Hin as [H|H]; [|exact H]. simpl in H. injection H as ->.
    discriminate. }
  destruct (String.eqb s "values"); [now apply IH|].
  destruct (String.eqb s "factory"); now apply IH.
Qed.

(** A JSON object with a top-level member named "self" cannot be loaded:
    the call of the class with the members as keywords raises TypeError. *)
Theorem loads_member_named_self
    (text : JsonText) (ms : list (string * Json)) :
  jt_document text = JObject ms ->
  In "self" (map fst ms) ->
  HDict_loads text = Raise TypeError_call.
Proof.
  intros Hdoc Hin. unfold HDict_loads, json_loads, HDict_call_keywords.
  rewrite Hdoc, json_decode_object. cbn [is_Mapping items].
  rewrite bind_keywords_self; [reflexivity|].
  now apply (decode_members_keys ms []).
Qed.

Lemma loads_member_named_self_witness :
  HDict_loads (mkJsonText [] (JObject [("a", JNumber 1); ("self", JNull)]))
  = Raise TypeError_call.
Proof.
  apply (loads_member_named_self _ [("a", JNumber 1); ("self", JNull)]).
  - reflexivity.
  - simpl. auto.
Defined.
